(** * Role-based authorization of lokicms-plugin-mcp-auth

    A shallow embedding of [createMCPAuth] (mcp-auth.ts), of the
    operations of the instance it returns, of the built-in tables
    (defaults.ts), of the middleware (middleware.ts) and of the
    permission tool of the plugin (plugin.ts), followed by the properties
    that the specification states about them and by further properties
    read off the code.

    Modelling conventions.
    - A JavaScript string is a [string]; one character stands for one
      code unit.
    - An object used as a dictionary ([config.roles], [config.apiKeyMap],
      a [tools] collection) has its own enumerable properties, kept in
      the order [Object.entries] yields them, and a prototype.  A read
      [o[k]] looks at the own properties first and then follows the
      prototype, so it also finds the members of [Object.prototype]
      ([constructor], [toString], the [__proto__] accessor, ...); a
      write [o[k] = v] under a key that is not an own property reaches
      the [__proto__] setter when [k] is ["__proto__"].  [Object.prototype]
      is taken as the runtime ships it.
    - The dictionaries handed to the code ([userConfig.roles],
      [userConfig.apiKeyMap], a [tools] collection) and the values
      stored in them (role definitions, tools) are plain objects as an
      object literal creates them: they inherit from [Object.prototype],
      are extensible, and have no accessors and no non-writable
      properties.
    - [process.env] is a function from variable names to [option string];
      the two variable names that [config] designates are names of
      environment variables.
    - The closure variable [config] is threaded explicitly: readers take
      it as an argument, [registerRole] and [mapApiKey] return the new one.
    - Tool collections live in a heap of objects addressed by references,
      so that returning the caller's object and building a fresh one can
      be told apart.
    - A parameter that TypeScript types as [string] and that receives
      the result of role resolution is a [RoleValue], because resolution
      can return a member of [Object.prototype] instead of a string.
    - A [TypeError] raised by reading a property of [undefined] is the
      [Throws] outcome.
    - The built-in tables of defaults.ts are transcribed as they stand.
    - Code that the middleware is handed, that is tool handlers,
      [inputSchema.parse], the two callbacks and [JSON.stringify], is a
      parameter; each such call returns or throws, and [executeTool]
      records the calls it makes in order. *)

From Stdlib Require Import String Ascii List NArith Bool Lia.
From stdpp Require Import base list.
Import ListNotations.

(** ** The fragment of the JavaScript runtime the code relies on *)

Module JS.

(** [if (s)] and [s || e] on a string: only the empty string is falsy. *)
Definition truthy (s : string) : bool := negb (String.eqb s "").

(** [if (x)] on [string | undefined]. *)
Definition truthy_opt (x : option string) : bool :=
  match x with
  | Some s => truthy s
  | None => false
  end.

(** [s.substring(0, n)]. *)
Definition substring0 (n : nat) (s : string) : string := String.substring 0 n s.

(** [s.startsWith(p)]. *)
Definition startsWith (s p : string) : bool := String.prefix p s.

(** [arr.includes(x)] and [new Set(arr).has(x)] on an array of strings. *)
Definition includes (arr : list string) (x : string) : bool :=
  existsb (String.eqb x) arr.

(** *** Array-index property keys

    [Object.entries] lists the keys that are canonical decimal numerals
    below 2^32 - 1 first, in ascending numeric order, and the other
    string keys after them in insertion order. *)

Definition digit_of (c : ascii) : option N :=
  let n := N_of_ascii c in
  if (48 <=? n)%N && (n <=? 57)%N then Some (n - 48)%N else None.

Fixpoint digits_value (acc : N) (s : string) : option N :=
  match s with
  | EmptyString => Some acc
  | String c s' =>
      match digit_of c with
      | Some d => digits_value (acc * 10 + d)%N s'
      | None => None
      end
  end.

Definition array_index (k : string) : option N :=
  match k with
  | EmptyString => None
  | String c rest =>
      if Ascii.eqb c "0" && negb (String.eqb rest "") then None
      else
        match digits_value 0 k with
        | Some n => if (n <=? 4294967294)%N then Some n else None
        | None => None
        end
  end.

(** [key_before k k']: a newly created property [k] is enumerated
    before the existing property [k']. *)
Definition key_before (k k' : string) : bool :=
  match array_index k, array_index k' with
  | Some a, Some b => (a <? b)%N
  | Some _, None => true
  | None, _ => false
  end.

(** *** The members of [Object.prototype]

    Its function-valued members; the remaining member is the accessor
    [__proto__]. *)
Definition Object_prototype_methods : list string :=
  ["constructor"%string; "__defineGetter__"%string; "__defineSetter__"%string;
   "hasOwnProperty"%string; "__lookupGetter__"%string;
   "__lookupSetter__"%string; "isPrototypeOf"%string;
   "propertyIsEnumerable"%string; "toString"%string; "valueOf"%string;
   "toLocaleString"%string].

(** The [name] property of the method found under key [k]:
    [Object.prototype.constructor] is the function [Object]. *)
Definition method_name (k : string) : string :=
  if String.eqb k "constructor" then "Object"%string else k.

(** [String(f)] for that method, as Node prints a built-in function. *)
Definition native_function_source (k : string) : string :=
  String.append "function "
    (String.append (method_name k) "() { [native code] }").

(** [String(Object.prototype)] *)
Definition Object_prototype_source : string := "[object Object]".

(** What a value assigned to [__proto__] is: an object, [null], or a
    primitive. *)
Inductive ValueKind : Type :=
| K_object
| K_null
| K_primitive.

(** *** Own properties as ordered dictionaries *)

Section Objects.
Context {T : Type}.

Local Abbreviation obj := (list (string * T)) (only parsing).

(** [Object.entries(o)] *)
Definition entries (o : obj) : list (string * T) := o.

(** [Object.keys(o)] *)
Definition keys (o : obj) : list string := map fst o.

(** The own property [k], [None] when there is none *)
Fixpoint obj_get (k : string) (o : obj) : option T :=
  match o with
  | [] => None
  | (k', v) :: o' => if String.eqb k k' then Some v else obj_get k o'
  end.

(** [Object.hasOwn(o, k)] *)
Definition obj_has (k : string) (o : obj) : bool :=
  match obj_get k o with
  | Some _ => true
  | None => false
  end.

Fixpoint obj_replace (k : string) (v : T) (o : obj) : obj :=
  match o with
  | [] => []
  | (k', v') :: o' =>
      if String.eqb k k' then (k', v) :: o' else (k', v') :: obj_replace k v o'
  end.

Fixpoint obj_insert_new (k : string) (v : T) (o : obj) : obj :=
  match o with
  | [] => [(k, v)]
  | (k', v') :: o' =>
      if key_before k k' then (k, v) :: o else (k', v') :: obj_insert_new k v o'
  end.

(** Defining the own data property [k] with value [v], as an object
    literal and a spread do: an existing property keeps its place, a new
    one is created at the place enumeration order gives it. *)
Definition obj_set (k : string) (v : T) (o : obj) : obj :=
  if obj_has k o then obj_replace k v o else obj_insert_new k v o.

(** The spread [{...a, ...b}] copies the own properties of [a], then of
    [b], into a fresh object by defining them. *)
Definition obj_assign (target source : obj) : obj :=
  fold_left (fun acc kv => obj_set (fst kv) (snd kv) acc) (entries source) target.

(** The representation invariant of own properties: the keys are
    pairwise distinct and stand in enumeration order. *)
Fixpoint own_keys_ok (ks : list string) : bool :=
  match ks with
  | [] => true
  | k :: ks' =>
      forallb (fun k' => negb (String.eqb k' k) && negb (key_before k' k)) ks'
      && own_keys_ok ks'
  end.

Definition wf_obj (o : obj) : Prop := own_keys_ok (keys o) = true.

(** *** Objects with their prototype *)

(** The prototype of a dictionary: [Object.prototype], or what an
    assignment to [__proto__] put in its place. *)
Inductive Prototype : Type :=
| Object_prototype
| Replaced (p : T)
| Null_prototype.

Record JSObject : Type := mkObject {
  own : list (string * T);
  proto : Prototype
}.

(** An object literal with the given own properties *)
Definition plain (o : obj) : JSObject :=
  {| own := o; proto := Object_prototype |}.

(** What a read [o[k]] finds. *)
Inductive Read : Type :=
| R_own (v : T)
| R_prototype (p : T)
| R_Object_prototype
| R_method (k : string)
| R_via (p : T)
| R_undefined.

(** [o[k]]: the own property; else, through the [__proto__] getter, the
    prototype itself; else a method of [Object.prototype]; else, when the
    prototype was replaced by [p], whatever [p[k]] is ([R_via p], which
    the caller resolves); else [undefined]. *)
Definition js_get (o : JSObject) (k : string) : Read :=
  match obj_get k (own o) with
  | Some v => R_own v
  | None =>
      match proto o with
      | Object_prototype =>
          if String.eqb k "__proto__" then R_Object_prototype
          else if includes Object_prototype_methods k then R_method k
          else R_undefined
      | Replaced p => if String.eqb k "__proto__" then R_prototype p else R_via p
      | Null_prototype => R_undefined
      end
  end.

(** [o[k] = v].  An own property is overwritten.  Otherwise the key
    ["__proto__"] reaches the setter of [Object.prototype], which replaces
    the prototype by an object or by [null] and ignores a primitive, and
    creates no own property; an object whose prototype is [null] has no
    such setter.  Any other key becomes a new own property. *)
Definition assign (kind : T -> ValueKind) (k : string) (v : T) (o : JSObject)
  : JSObject :=
  if negb (obj_has k (own o)) && String.eqb k "__proto__" then
    match proto o with
    | Null_prototype => {| own := obj_set k v (own o); proto := proto o |}
    | _ =>
        match kind v with
        | K_object => {| own := own o; proto := Replaced v |}
        | K_null => {| own := own o; proto := Null_prototype |}
        | K_primitive => o
        end
    end
  else {| own := obj_set k v (own o); proto := proto o |}.

(** *** A heap of objects

    A reference is an index into the list of allocated objects. *)

(** Reading through a reference; references handed out by [alloc]
    are always in range. *)
Definition deref (h : list JSObject) (r : nat) : JSObject :=
  default (plain []) (h !! r).

(** [{}] or any other fresh object *)
Definition alloc (o : JSObject) (h : list JSObject) : nat * list JSObject :=
  (length h, h ++ [o]).

(** [r[k] = v] *)
Definition heap_assign (kind : T -> ValueKind) (r : nat) (k : string) (v : T)
    (h : list JSObject) : list JSObject :=
  <[r := assign kind k v (deref h r)]> h.
End Objects.

Arguments Prototype : clear implicits.
Arguments JSObject : clear implicits.
Arguments Read : clear implicits.
Arguments Object_prototype {T}.
Arguments Null_prototype {T}.
Arguments R_Object_prototype {T}.
Arguments R_method {T} k.
Arguments R_undefined {T}.

Abbreviation obj T := (list (string * T)) (only parsing).
Abbreviation ref := nat (only parsing).
Abbreviation heap T := (list (JSObject T)) (only parsing).

(** What a call does: it returns a value or throws. *)
Inductive outcome (A : Type) : Type :=
| Returns (a : A)
| Throws (error : string).
Arguments Returns {A} a.
Arguments Throws {A} error.

Definition returns_normally {A : Type} (o : outcome A) : Prop :=
  exists a, o = Returns a.

(** The message of the [TypeError] that reading property [prop] of
    [undefined] raises, and how the error prints. *)
Definition reading (prop : string) : string :=
  String.append "Cannot read properties of undefined (reading '"
    (String.append prop "')").

Definition TypeError (message : string) : string :=
  String.append "TypeError: " message.

(** The [message] of an error that prints as [error]: what follows the
    name, the colon and the space. *)
Definition message_of (error : string) : string :=
  String.substring 11 (String.length error) error.

End JS.

Import JS.

(** ** Data model (types.ts) *)

Inductive AccessLevel : Type := full | limited.

(** [tools: string[] | '*'] *)
Inductive Tools : Type :=
| AllTools
| ToolList (names : list string).

Module RoleConfig.
Record t : Type := mk {
  name : string;
  description : string;
  accessLevel : AccessLevel;
  tools : Tools;
  blockedTools : option (list string)
}.
End RoleConfig.

(** What role resolution returns: a string, or, when a lookup in the
    prefix map found an inherited member, a method of [Object.prototype]
    or [Object.prototype] itself. *)
Inductive RoleValue : Type :=
| Role (key : string)
| InheritedMethod (k : string)
| ObjectPrototype.

(** The value as a property key and in a template literal *)
Definition key_of (role : RoleValue) : string :=
  match role with
  | Role key => key
  | InheritedMethod k => native_function_source k
  | ObjectPrototype => Object_prototype_source
  end.

(** [if (role)] and [role || e] *)
Definition truthy_value (role : RoleValue) : bool :=
  match role with
  | Role key => truthy key
  | InheritedMethod _ => true
  | ObjectPrototype => true
  end.

(** [allowedTools] and the text fields are [undefined] when the role
    table yields something that is not a role definition. *)
Module ToolFilter.
Record t : Type := mk {
  allowedTools : option (list string);
  blockedTools : list string;
  role : RoleValue;
  userId : string
}.
End ToolFilter.

Module AuthResult.
Record t : Type := mk {
  authenticated : bool;
  role : option RoleValue;
  userId : option string;
  error : option string
}.
End AuthResult.

Module RoleInfo.
Record t : Type := mk {
  key : string;
  name : string;
  description : string;
  accessLevel : AccessLevel;
  toolCount : nat
}.
End RoleInfo.

Module AgentInfo.
Record t : Type := mk {
  role : RoleValue;
  name : option string;
  description : option string;
  allowedToolCount : nat;
  blockedToolCount : nat
}.
End AgentInfo.

(** [MCPAuthConfig]: what the caller of [createMCPAuth] may supply; of
    [roles] only the own properties matter, a spread copies them. *)
Module MCPAuthConfig.
Record t : Type := mk {
  roles : option (obj RoleConfig.t);
  defaultRole : option string;
  apiKeyMap : option (obj string);
  knownTools : option (list string);
  roleEnvVar : option string;
  apiKeyEnvVar : option string
}.
Definition empty : t := mk None None None None None None.
End MCPAuthConfig.

(** [Required<MCPAuthConfig>]: the [config] the instance closes over.
    Its [roles] and [apiKeyMap] are the Policy Store.  The prefix map is
    an object literal or the caller's plain object, and [mapApiKey]
    stores strings, so its prototype stays [Object.prototype] and only
    its own properties are recorded. *)
Module Config.
Record t : Type := mk {
  roles : JSObject RoleConfig.t;
  defaultRole : string;
  apiKeyMap : obj string;
  knownTools : list string;
  roleEnvVar : string;
  apiKeyEnvVar : string
}.
End Config.

(** [process.env] *)
Definition ProcessEnv : Type := string -> option string.

(** ** Reading the Policy Store *)

(** What [config.roles[k]] is to the code that uses it as [roleConfig]:
    a role definition; another truthy value, whose [tools],
    [blockedTools] and [description] are [undefined] and whose [name] is
    given; the empty string; or [undefined]. *)
Inductive Found : Type :=
| F_role (roleConfig : RoleConfig.t)
| F_other (name : option string)
| F_empty_string
| F_undefined.

(** [if (roleConfig)] *)
Definition found_truthy (f : Found) : bool :=
  match f with
  | F_role _ => true
  | F_other _ => true
  | F_empty_string => false
  | F_undefined => false
  end.

(** [roleConfig.tools] *)
Definition found_tools (f : Found) : option Tools :=
  match f with
  | F_role roleConfig => Some (RoleConfig.tools roleConfig)
  | _ => None
  end.

(** [roleConfig.blockedTools] *)
Definition found_blockedTools (f : Found) : option (list string) :=
  match f with
  | F_role roleConfig => RoleConfig.blockedTools roleConfig
  | _ => None
  end.

(** [roleConfig.name] *)
Definition found_name (f : Found) : option string :=
  match f with
  | F_role roleConfig => Some (RoleConfig.name roleConfig)
  | F_other name => name
  | _ => None
  end.

(** [roleConfig.description] *)
Definition found_description (f : Found) : option string :=
  match f with
  | F_role roleConfig => Some (RoleConfig.description roleConfig)
  | _ => None
  end.

(** A string read as [roleConfig] *)
Definition string_found (s : string) : Found :=
  if truthy s then F_other None else F_empty_string.

(** The own property [k] of a role definition object, when it has one:
    the object is a prototype of the role table after
    [config.roles['__proto__'] = roleConfig]. *)
Definition RoleConfig_property (p : RoleConfig.t) (k : string) : option Found :=
  if String.eqb k "name" then Some (string_found (RoleConfig.name p))
  else if String.eqb k "description"
  then Some (string_found (RoleConfig.description p))
  else if String.eqb k "accessLevel" then Some (F_other None)
  else if String.eqb k "tools" then Some (F_other None)
  else if String.eqb k "blockedTools"
  then match RoleConfig.blockedTools p with
       | Some _ => Some (F_other None)
       | None => None
       end
  else None.

(** [config.roles[k]] *)
Definition roles_get (config : Config.t) (k : string) : Found :=
  match js_get (Config.roles config) k with
  | R_own roleConfig => F_role roleConfig
  | R_prototype p => F_role p
  | R_Object_prototype => F_other None
  | R_method m => F_other (Some (method_name m))
  | R_via p =>
      match RoleConfig_property p k with
      | Some f => f
      | None =>
          if includes Object_prototype_methods k
          then F_other (Some (method_name k))
          else F_undefined
      end
  | R_undefined => F_undefined
  end.

(** [config.apiKeyMap[k]], [None] standing for [undefined] *)
Definition apiKeyMap_get (config : Config.t) (k : string) : option RoleValue :=
  match js_get (plain (Config.apiKeyMap config)) k with
  | R_own role => Some (Role role)
  | R_Object_prototype => Some ObjectPrototype
  | R_method m => Some (InheritedMethod m)
  | _ => None
  end.

(** ** createMCPAuth (mcp-auth.ts) *)

Section Construction.

(** The constants of defaults.ts, which createMCPAuth imports. *)
Variable DEFAULT_ROLES : obj RoleConfig.t.
Variable DEFAULT_KNOWN_TOOLS : list string.
Variable DEFAULT_defaultRole : string.
Variable DEFAULT_roleEnvVar : string.
Variable DEFAULT_apiKeyEnvVar : string.

Definition createMCPAuth (userConfig : MCPAuthConfig.t) : Config.t :=
  {| Config.roles :=
       plain (obj_assign (obj_assign [] DEFAULT_ROLES)
                         (default [] (MCPAuthConfig.roles userConfig)));
     Config.defaultRole :=
       default DEFAULT_defaultRole (MCPAuthConfig.defaultRole userConfig);
     Config.apiKeyMap := default [] (MCPAuthConfig.apiKeyMap userConfig);
     Config.knownTools :=
       default DEFAULT_KNOWN_TOOLS (MCPAuthConfig.knownTools userConfig);
     Config.roleEnvVar :=
       default DEFAULT_roleEnvVar (MCPAuthConfig.roleEnvVar userConfig);
     Config.apiKeyEnvVar :=
       default DEFAULT_apiKeyEnvVar (MCPAuthConfig.apiKeyEnvVar userConfig) |}.

End Construction.

(** ** The operations of the instance *)

Section Operations.

Variable config : Config.t.
Variable env : ProcessEnv.

(** Get role from API key prefix *)
Definition getRoleFromApiKey (apiKey : string) : RoleValue :=
  let prefix := substring0 14 apiKey in
  let scan :=
    match find (fun kv => startsWith apiKey (fst kv))
               (entries (Config.apiKeyMap config)) with
    | Some (_, role) => Role role
    | None => Role (Config.defaultRole config)
    end in
  match apiKeyMap_get config prefix with
  | Some role => if truthy_value role then role else scan
  | None => scan
  end.

(** Get role from environment variable *)
Definition getRoleFromEnv : RoleValue :=
  let fromApiKey :=
    match env (Config.apiKeyEnvVar config) with
    | Some apiKey =>
        if truthy apiKey then getRoleFromApiKey apiKey
        else Role (Config.defaultRole config)
    | None => Role (Config.defaultRole config)
    end in
  match env (Config.roleEnvVar config) with
  | Some directRole =>
      if truthy directRole && found_truthy (roles_get config directRole)
      then Role directRole
      else fromApiKey
  | None => fromApiKey
  end.

(** Authenticate agent *)
Definition authenticateAgent : AuthResult.t :=
  let role := getRoleFromEnv in
  let apiKey := env (Config.apiKeyEnvVar config) in
  if negb (found_truthy (roles_get config (key_of role))) then
    {| AuthResult.authenticated := false;
       AuthResult.role := None;
       AuthResult.userId := None;
       AuthResult.error := Some (String.append "Unknown role: " (key_of role)) |}
  else
    {| AuthResult.authenticated := true;
       AuthResult.role := Some role;
       AuthResult.userId :=
         Some (match apiKey with
               | Some k =>
                   if truthy k then String.append "api-key:" (substring0 14 k)
                   else "env-role"%string
               | None => "env-role"%string
               end);
       AuthResult.error := None |}.

(** Get allowed tools for a role; [None] is [undefined], the [tools] of
    a value that is no role definition. *)
Definition getAllowedTools (role : RoleValue) : option (list string) :=
  let roleConfig := roles_get config (key_of role) in
  if negb (found_truthy roleConfig) then Some []
  else
    match found_tools roleConfig with
    | Some AllTools => Some (Config.knownTools config)
    | Some (ToolList names) => Some names
    | None => None
    end.

(** Get blocked tools for a role *)
Definition getBlockedTools (role : RoleValue) : list string :=
  let roleConfig := roles_get config (key_of role) in
  if negb (found_truthy roleConfig) then []
  else
    match found_tools roleConfig with
    | Some AllTools => []
    | _ => default [] (found_blockedTools roleConfig)
    end.

(** [role || getRoleFromEnv()] for the optional [role] parameter *)
Definition currentRole (role : option RoleValue) : RoleValue :=
  match role with
  | Some r => if truthy_value r then r else getRoleFromEnv
  | None => getRoleFromEnv
  end.

(** Check if a tool is allowed.  When [roleConfig] is truthy and has no
    [tools], [roleConfig.tools.includes] reads a property of
    [undefined]. *)
Definition isToolAllowed (toolName : string) (role : option RoleValue)
  : outcome bool :=
  let roleConfig := roles_get config (key_of (currentRole role)) in
  if negb (found_truthy roleConfig) then Returns false
  else
    match found_tools roleConfig with
    | Some AllTools => Returns true
    | Some (ToolList names) => Returns (includes names toolName)
    | None => Throws (TypeError (reading "includes"))
    end.

(** Filter tools object based on role.  [new Set(undefined)] is the
    empty set. *)
Definition filterTools {T : Type} (kind : T -> ValueKind) (h : heap T)
    (tools : ref) (role : option RoleValue) : ref * heap T :=
  let roleConfig := roles_get config (key_of (currentRole role)) in
  if negb (found_truthy roleConfig) then alloc (plain []) h
  else
    match found_tools roleConfig with
    | Some AllTools => (tools, h)
    | roleConfig_tools =>
        let allowedTools :=
          match roleConfig_tools with
          | Some (ToolList names) => names
          | _ => []
          end in
        let (filtered, h1) := alloc (plain []) h in
        (filtered,
         fold_left
           (fun hh kv =>
              if includes allowedTools (fst kv)
              then heap_assign kind filtered (fst kv) (snd kv) hh
              else hh)
           (entries (own (deref h1 tools))) h1)
    end.

(** Get tool filter configuration *)
Definition getToolFilter : ToolFilter.t :=
  let auth := authenticateAgent in
  let role :=
    match AuthResult.role auth with
    | Some r => if truthy_value r then r else Role (Config.defaultRole config)
    | None => Role (Config.defaultRole config)
    end in
  {| ToolFilter.allowedTools := getAllowedTools role;
     ToolFilter.blockedTools := getBlockedTools role;
     ToolFilter.role := role;
     ToolFilter.userId :=
       match AuthResult.userId auth with
       | Some u => if truthy u then u else "anonymous"%string
       | None => "anonymous"%string
       end |}.

(** Get all available roles *)
Definition getRoles : list RoleInfo.t :=
  map (fun kv =>
         let roleConfig := snd kv in
         {| RoleInfo.key := fst kv;
            RoleInfo.name := RoleConfig.name roleConfig;
            RoleInfo.description := RoleConfig.description roleConfig;
            RoleInfo.accessLevel := RoleConfig.accessLevel roleConfig;
            RoleInfo.toolCount :=
              match RoleConfig.tools roleConfig with
              | AllTools => length (Config.knownTools config)
              | ToolList names => length names
              end |})
      (entries (own (Config.roles config))).

(** Get current agent info.  The object literal reads [roleConfig.name]
    first, which throws when [config.roles[role] ||
    config.roles[config.defaultRole]] is [undefined], and
    [allowed.length] later, which throws when [getAllowedTools] returned
    [undefined]. *)
Definition getAgentInfo : outcome AgentInfo.t :=
  let role := getRoleFromEnv in
  let roleConfig :=
    if found_truthy (roles_get config (key_of role))
    then roles_get config (key_of role)
    else roles_get config (Config.defaultRole config) in
  let allowed := getAllowedTools role in
  let blocked := getBlockedTools role in
  match roleConfig with
  | F_undefined => Throws (TypeError (reading "name"))
  | _ =>
      match allowed with
      | None => Throws (TypeError (reading "length"))
      | Some allowedTools =>
          Returns {| AgentInfo.role := role;
                     AgentInfo.name := found_name roleConfig;
                     AgentInfo.description := found_description roleConfig;
                     AgentInfo.allowedToolCount := length allowedTools;
                     AgentInfo.blockedToolCount := length blocked |}
      end
  end.

(** Register a custom role: [config.roles[key] = roleConfig] *)
Definition registerRole (key : string) (roleConfig : RoleConfig.t) : Config.t :=
  {| Config.roles :=
       assign (fun _ => K_object) key roleConfig (Config.roles config);
     Config.defaultRole := Config.defaultRole config;
     Config.apiKeyMap := Config.apiKeyMap config;
     Config.knownTools := Config.knownTools config;
     Config.roleEnvVar := Config.roleEnvVar config;
     Config.apiKeyEnvVar := Config.apiKeyEnvVar config |}.

(** Map API key prefix to role: [config.apiKeyMap[prefix] = role] *)
Definition mapApiKey (prefix role : string) : Config.t :=
  {| Config.roles := Config.roles config;
     Config.defaultRole := Config.defaultRole config;
     Config.apiKeyMap :=
       own (assign (fun _ => K_primitive) prefix role
                   (plain (Config.apiKeyMap config)));
     Config.knownTools := Config.knownTools config;
     Config.roleEnvVar := Config.roleEnvVar config;
     Config.apiKeyEnvVar := Config.apiKeyEnvVar config |}.

End Operations.

(** ** The instance as the host sees it

    [createMCPAuth] returns one object whose methods share [config].  A
    call is a method with its arguments; running it gives an outcome and
    the state afterwards (the Policy Store inside [config], and the
    objects the host and the instance have allocated). *)

Inductive Method : Type :=
| M_getRoleFromEnv
| M_getRoleFromApiKey (apiKey : string)
| M_authenticateAgent
| M_getAllowedTools (role : RoleValue)
| M_getBlockedTools (role : RoleValue)
| M_isToolAllowed (toolName : string) (role : option RoleValue)
| M_filterTools (tools : ref) (role : option RoleValue)
| M_getToolFilter
| M_getRoles
| M_getAgentInfo
| M_registerRole (key : string) (roleConfig : RoleConfig.t)
| M_mapApiKey (prefix role : string).

Inductive Value : Type :=
| V_undefined
| V_role (r : RoleValue)
| V_boolean (b : bool)
| V_strings (l : list string)
| V_strings_or_undefined (l : option (list string))
| V_object (r : ref)
| V_AuthResult (a : AuthResult.t)
| V_ToolFilter (f : ToolFilter.t)
| V_RoleInfos (l : list RoleInfo.t)
| V_AgentInfo (a : AgentInfo.t).

Module State.
Record t (T : Type) : Type := mk {
  config : Config.t;
  objects : heap T
}.
Arguments mk {T} config objects.
Arguments config {T} _.
Arguments objects {T} _.
End State.

Definition invoke {T : Type} (kind : T -> ValueKind) (m : Method)
    (env : ProcessEnv) (st : State.t T) : outcome Value * State.t T :=
  let config := State.config st in
  match m with
  | M_getRoleFromEnv => (Returns (V_role (getRoleFromEnv config env)), st)
  | M_getRoleFromApiKey apiKey =>
      (Returns (V_role (getRoleFromApiKey config apiKey)), st)
  | M_authenticateAgent =>
      (Returns (V_AuthResult (authenticateAgent config env)), st)
  | M_getAllowedTools role =>
      (Returns (V_strings_or_undefined (getAllowedTools config role)), st)
  | M_getBlockedTools role =>
      (Returns (V_strings (getBlockedTools config role)), st)
  | M_isToolAllowed toolName role =>
      match isToolAllowed config env toolName role with
      | Returns b => (Returns (V_boolean b), st)
      | Throws e => (Throws e, st)
      end
  | M_filterTools tools role =>
      let (r, h) := filterTools config env kind (State.objects st) tools role in
      (Returns (V_object r), State.mk config h)
  | M_getToolFilter => (Returns (V_ToolFilter (getToolFilter config env)), st)
  | M_getRoles => (Returns (V_RoleInfos (getRoles config)), st)
  | M_getAgentInfo =>
      match getAgentInfo config env with
      | Returns a => (Returns (V_AgentInfo a), st)
      | Throws e => (Throws e, st)
      end
  | M_registerRole key roleConfig =>
      (Returns V_undefined,
       State.mk (registerRole config key roleConfig) (State.objects st))
  | M_mapApiKey prefix role =>
      (Returns V_undefined,
       State.mk (mapApiKey config prefix role) (State.objects st))
  end.

(** The two mutators of the Policy Store, as data. *)
Inductive Mutation : Type :=
| RegisterRole (key : string) (roleConfig : RoleConfig.t)
| MapApiKey (prefix role : string).

Definition apply_mutation (config : Config.t) (m : Mutation) : Config.t :=
  match m with
  | RegisterRole key roleConfig => registerRole config key roleConfig
  | MapApiKey prefix role => mapApiKey config prefix role
  end.

Definition apply_mutations (config : Config.t) (ms : list Mutation) : Config.t :=
  fold_left apply_mutation ms config.

(** ** Vocabulary of the specification *)

(** Which of the three steps of [getRoleFromEnv] produced the role. *)
Inductive ResolutionSource : Type :=
| DirectClaim
| Credential
| DefaultRole.

Definition resolution_source (config : Config.t) (env : ProcessEnv)
  : ResolutionSource :=
  let afterClaim :=
    if truthy_opt (env (Config.apiKeyEnvVar config)) then Credential
    else DefaultRole in
  match env (Config.roleEnvVar config) with
  | Some directRole =>
      if truthy directRole && found_truthy (roles_get config directRole)
      then DirectClaim
      else afterClaim
  | None => afterClaim
  end.

(** The identity tags of [authenticateAgent]. *)
Definition credential_tag (apiKey : string) : string :=
  String.append "api-key:" (substring0 14 apiKey).

Definition environment_tag : string := "env-role".

(** The role definition the Policy Store has for a key: what
    [config.roles[key]] yields when that is a role definition. *)
Definition role_definition (config : Config.t) (key : string)
  : option RoleConfig.t :=
  match roles_get config key with
  | F_role roleConfig => Some roleConfig
  | _ => None
  end.

(** A role key is registered when the Policy Store has a definition for it. *)
Definition registered (config : Config.t) (key : string) : Prop :=
  exists roleConfig, role_definition config key = Some roleConfig.

(** The Policy Store has nothing for the key: [config.roles[key]] is
    [undefined] or falsy.  A key that is neither registered nor absent
    names a property that the role table inherits. *)
Definition absent (config : Config.t) (key : string) : Prop :=
  found_truthy (roles_get config key) = false.

(** There is no direct role claim to consider: it is unset, empty, or
    names a key the Policy Store has nothing for. *)
Definition direct_claim_ignored (config : Config.t) (env : ProcessEnv) : Prop :=
  match env (Config.roleEnvVar config) with
  | Some directRole => directRole = ""%string \/ absent config directRole
  | None => True
  end.

(** The result of [filterTools]: the own properties of the returned
    object. *)
Definition filtered_entries {T : Type} (res : ref * heap T) : obj T :=
  own (deref (snd res) (fst res)).

(** [p] is a literal prefix of [s]. *)
Definition literal_prefix (p s : string) : Prop :=
  exists rest, s = String.append p rest.

(** The credential ambient source holds no usable credential: it is
    unset or empty. *)
Definition no_credential (config : Config.t) (env : ProcessEnv) : Prop :=
  env (Config.apiKeyEnvVar config) = None \/
  env (Config.apiKeyEnvVar config) = Some ""%string.

(** The fast path of [getRoleFromApiKey] does not answer: reading the
    prefix map under the first 14 characters gives [undefined] or the
    empty string. *)
Definition no_exact_mapping (config : Config.t) (apiKey : string) : Prop :=
  apiKeyMap_get config (substring0 14 apiKey) = None \/
  apiKeyMap_get config (substring0 14 apiKey) = Some (Role ""%string).

(** A call that names its role or credential in its arguments. *)
Definition names_its_role (m : Method) : bool :=
  match m with
  | M_getRoleFromApiKey _ => true
  | M_getAllowedTools _ => true
  | M_getBlockedTools _ => true
  | M_isToolAllowed _ (Some _) => true
  | M_filterTools _ (Some _) => true
  | _ => false
  end.

(** The same, with the role argument truthy where the method would
    otherwise fall back to [getRoleFromEnv]. *)
Definition names_nonempty_role (m : Method) : bool :=
  match m with
  | M_getRoleFromApiKey _ => true
  | M_getAllowedTools _ => true
  | M_getBlockedTools _ => true
  | M_isToolAllowed _ (Some r) => truthy_value r
  | M_filterTools _ (Some r) => truthy_value r
  | _ => false
  end.

(** [isToolAllowed] returned [true]. *)
Definition accepts (config : Config.t) (env : ProcessEnv) (toolName : string)
    (role : option RoleValue) : bool :=
  match isToolAllowed config env toolName role with
  | Returns b => b
  | Throws _ => false
  end.

(** The keys under which an assignment [o[k] = v] adds an own property
    to an ordinary object: every key but ["__proto__"], which reaches
    the inherited setter. *)
Definition assignable (k : string) : bool := negb (String.eqb k "__proto__").

(** The names an ordinary object inherits from [Object.prototype]. *)
Definition inherited_name (k : string) : bool :=
  String.eqb k "__proto__" || includes Object_prototype_methods k.

(** The names [filterTools] puts into its set: [new Set(roleConfig.tools)]. *)
Definition allowed_names (roleConfig : Found) : list string :=
  match found_tools roleConfig with
  | Some (ToolList names) => names
  | _ => []
  end.

(** The decision of the Policy Store for a role definition. *)
Definition permits (roleConfig : RoleConfig.t) (toolName : string) : bool :=
  match RoleConfig.tools roleConfig with
  | AllTools => true
  | ToolList names => includes names toolName
  end.

(** Every entry of a collection is an object, as a tool is. *)
Definition all_objects {T : Type} : T -> ValueKind := fun _ => K_object.

(** ** Sample data *)

Definition sample_admin : RoleConfig.t :=
  RoleConfig.mk "Administrator" "Full access" full AllTools None.

Definition sample_viewer : RoleConfig.t :=
  RoleConfig.mk "Viewer" "Read-only access" limited
    (ToolList ["list_entries"%string; "get_entry"%string])
    (Some ["create_entry"%string; "delete_entry"%string]).

Definition sample_roles : obj RoleConfig.t :=
  [("admin"%string, sample_admin); ("viewer"%string, sample_viewer)].

Definition sample_known_tools : list string :=
  ["list_entries"%string; "get_entry"%string; "create_entry"%string;
   "delete_entry"%string; "create_user"%string].

Definition sample_config : Config.t :=
  Config.mk (plain sample_roles) "viewer" [] sample_known_tools
            "AGENT_ROLE" "AGENT_API_KEY".

(** A configuration whose default role names no registered role. *)
Definition ghost_default_config : Config.t :=
  Config.mk (plain sample_roles) "ghost" [] sample_known_tools
            "AGENT_ROLE" "AGENT_API_KEY".

(** Two prefixes, one a prefix of the other. *)
Definition nested_prefix_map : obj string :=
  [("ab"%string, "roleX"%string); ("abc"%string, ""%string)].

Definition nested_prefix_config : Config.t :=
  Config.mk (plain sample_roles) "viewer" nested_prefix_map sample_known_tools
            "AGENT_ROLE" "AGENT_API_KEY".

(** The empty prefix mapped to a role: it matches every credential. *)
Definition catch_all_config : Config.t :=
  Config.mk (plain sample_roles) "viewer" [(""%string, "admin"%string)]
            sample_known_tools "AGENT_ROLE" "AGENT_API_KEY".

Definition env_of (bindings : list (string * string)) : ProcessEnv :=
  fun var => obj_get var bindings.

Definition no_env : ProcessEnv := env_of [].

Definition admin_env : ProcessEnv := env_of [("AGENT_ROLE"%string, "admin"%string)].

Definition admin_with_key_env : ProcessEnv :=
  env_of [("AGENT_ROLE"%string, "admin"%string);
          ("AGENT_API_KEY"%string, "sk-live-0123456789abcdef"%string)].

Definition empty_key_env : ProcessEnv :=
  env_of [("AGENT_API_KEY"%string, ""%string)].

(** The environment claims a role key that the role table inherits. *)
Definition constructor_env : ProcessEnv :=
  env_of [("AGENT_ROLE"%string, "constructor"%string)].

Definition sample_tools : JSObject nat :=
  plain [("7"%string, 70); ("list_entries"%string, 1);
         ("create_user"%string, 2); ("get_entry"%string, 3)].

(** ** Built-in policy (defaults.ts) *)

Section Defaults.
Local Open Scope string_scope.

(** Default role configurations *)
Definition DEFAULT_ROLES : obj RoleConfig.t :=
  [("admin",
    RoleConfig.mk "Admin" "Full access to all operations" full AllTools None);
   ("editor",
    RoleConfig.mk "Editor" "Can read/write content but not modify structure"
      limited
      (ToolList
         ["list_content_types"; "get_content_type"; "get_structure_summary";
          "list_entries"; "get_entry"; "create_entry"; "update_entry";
          "delete_entry"; "publish_entry"; "unpublish_entry";
          "list_taxonomies"; "get_taxonomy";
          "list_terms"; "get_term"; "assign_terms"; "get_entries_by_term";
          "search"; "search_in_content_type"; "search_suggest";
          "scheduler_status"; "scheduler_upcoming"; "schedule_entry";
          "cancel_schedule";
          "revision_list"; "revision_compare"; "revision_stats"])
      (Some
         ["create_content_type"; "delete_content_type"; "import_structure";
          "export_structure"; "create_taxonomy"; "delete_taxonomy";
          "create_term"; "update_term"; "delete_term"; "list_users";
          "get_user"; "create_user"; "update_user"; "update_user_role";
          "delete_user"; "create_api_key"; "list_api_keys"; "revoke_api_key";
          "webhook_list"; "webhook_create"; "webhook_test"; "webhook_stats";
          "backup_create"; "backup_list"; "backup_restore"; "backup_stats";
          "audit_recent"; "audit_query"; "audit_resource_history";
          "audit_stats"]));
   ("author",
    RoleConfig.mk "Author" "Can create and manage own content" limited
      (ToolList
         ["list_content_types"; "get_content_type"; "get_structure_summary";
          "list_entries"; "get_entry"; "create_entry"; "update_entry";
          "list_taxonomies"; "get_taxonomy"; "list_terms"; "get_term";
          "assign_terms"; "search"; "search_in_content_type";
          "search_suggest"])
      None);
   ("viewer",
    RoleConfig.mk "Viewer" "Read-only access to content" limited
      (ToolList
         ["list_content_types"; "get_content_type"; "get_structure_summary";
          "list_entries"; "get_entry"; "list_taxonomies"; "get_taxonomy";
          "list_terms"; "get_term"; "get_entries_by_term"; "search";
          "search_in_content_type"; "search_suggest"])
      None)].

(** Default list of all known MCP tools *)
Definition DEFAULT_KNOWN_TOOLS : list string :=
  ["list_content_types"; "get_content_type"; "create_content_type";
   "delete_content_type";
   "list_entries"; "get_entry"; "create_entry"; "update_entry";
   "delete_entry"; "publish_entry"; "unpublish_entry";
   "list_taxonomies"; "get_taxonomy"; "create_taxonomy"; "delete_taxonomy";
   "list_terms"; "get_term"; "create_term"; "update_term"; "delete_term";
   "assign_terms"; "get_entries_by_term";
   "list_users"; "get_user"; "create_user"; "update_user";
   "update_user_role"; "delete_user";
   "create_api_key"; "list_api_keys"; "revoke_api_key";
   "search"; "search_in_content_type"; "search_suggest";
   "scheduler_status"; "scheduler_upcoming"; "schedule_entry";
   "cancel_schedule";
   "audit_recent"; "audit_query"; "audit_resource_history"; "audit_stats";
   "revision_list"; "revision_compare"; "revision_stats";
   "webhook_list"; "webhook_create"; "webhook_test"; "webhook_stats";
   "backup_create"; "backup_list"; "backup_restore"; "backup_stats";
   "export_structure"; "import_structure"; "get_structure_summary"].

End Defaults.

(** Default configuration *)
Module DEFAULT_CONFIG.
Definition defaultRole : string := "viewer".
Definition roleEnvVar : string := "AGENT_ROLE".
Definition apiKeyEnvVar : string := "AGENT_API_KEY".
End DEFAULT_CONFIG.

(** [createMCPAuth] as the package exports it, closed over defaults.ts. *)
Definition createMCPAuth_builtin (userConfig : MCPAuthConfig.t) : Config.t :=
  createMCPAuth DEFAULT_ROLES DEFAULT_KNOWN_TOOLS DEFAULT_CONFIG.defaultRole
                DEFAULT_CONFIG.roleEnvVar DEFAULT_CONFIG.apiKeyEnvVar userConfig.

(** Default instance with default configuration *)
Definition mcpAuth : Config.t := createMCPAuth_builtin MCPAuthConfig.empty.

(** ** Middleware (middleware.ts) *)

(** The Zod schemas that [zodToJsonSchema] tells apart: an object with
    its [shape], the schemas it switches on by [_def.typeName], and any
    other schema. *)
#[warnings="-register-all"]
Inductive ZodType : Type :=
| ZodObject (shape : list (string * ZodType))
| ZodString (description : option string)
| ZodNumber (description : option string)
| ZodBoolean (description : option string)
| ZodArray (type : ZodType) (description : option string)
| ZodEnum (values : list string) (description : option string)
| ZodOptional (innerType : ZodType)
| ZodNullable (innerType : ZodType)
| ZodRecord (description : option string)
| ZodOther.

(** The values a JSON Schema object built by [zodToJsonSchema] holds. *)
#[warnings="-register-all"]
Inductive Json : Type :=
| J_undefined
| J_string (s : string)
| J_true
| J_strings (l : list string)
| J_object (fields : list (string * Json)).

(** [def.description], which may be [undefined] *)
Definition J_optional_string (d : option string) : Json :=
  match d with
  | Some s => J_string s
  | None => J_undefined
  end.

(** ['_def' in value && value._def.typeName === 'ZodOptional'] *)
Definition isOptional (value : ZodType) : bool :=
  match value with
  | ZodOptional _ => true
  | _ => false
  end.

(** ['_def' in value && value._def.typeName === 'ZodNullable'] *)
Definition isNullable (value : ZodType) : bool :=
  match value with
  | ZodNullable _ => true
  | _ => false
  end.

(** The loop over [Object.entries(shape)], with the conversion of a field
    schema as a parameter.  [properties[key] = ...] is an assignment on
    an object literal, so the key ["__proto__"] reaches the inherited
    setter and adds no property. *)
Definition convert_shape (convert : ZodType -> obj Json) :=
  fix loop (l : list (string * ZodType)) (properties : JSObject Json)
      (required : list string) : JSObject Json * list string :=
    match l with
    | [] => (properties, required)
    | (key, value) :: l' =>
        loop l'
             (assign (fun _ => K_object) key (J_object (convert value))
                     properties)
             (if negb (isOptional value) && negb (isNullable value)
              then required ++ [key]
              else required)
    end.

(** Convert Zod schema to JSON Schema.  A schema object is recorded by
    its own properties. *)
Fixpoint zodToJsonSchema (schema : ZodType) : obj Json :=
  match schema with
  | ZodObject shape =>
      let (properties, required) :=
        convert_shape zodToJsonSchema shape (plain []) [] in
      [("type"%string, J_string "object");
       ("properties"%string, J_object (own properties));
       ("required"%string,
        match required with
        | [] => J_undefined
        | _ :: _ => J_strings required
        end)]
  | ZodString description =>
      [("type"%string, J_string "string");
       ("description"%string, J_optional_string description)]
  | ZodNumber description =>
      [("type"%string, J_string "number");
       ("description"%string, J_optional_string description)]
  | ZodBoolean description =>
      [("type"%string, J_string "boolean");
       ("description"%string, J_optional_string description)]
  | ZodArray type description =>
      [("type"%string, J_string "array");
       ("items"%string, J_object (zodToJsonSchema type));
       ("description"%string, J_optional_string description)]
  | ZodEnum values description =>
      [("type"%string, J_string "string");
       ("enum"%string, J_strings values);
       ("description"%string, J_optional_string description)]
  | ZodOptional innerType => zodToJsonSchema innerType
  | ZodNullable innerType =>
      obj_set "nullable" J_true (obj_assign [] (zodToJsonSchema innerType))
  | ZodRecord description =>
      [("type"%string, J_string "object");
       ("additionalProperties"%string, J_true);
       ("description"%string, J_optional_string description)]
  | ZodOther => [("type"%string, J_string "object")]
  end.

(** A value that was thrown: an [Error] with its message, or anything else. *)
Inductive Thrown : Type :=
| ThrownError (message : string)
| ThrownOther.

(** [error instanceof Error ? error.message : 'Unknown error'] *)
Definition error_message (error : Thrown) : string :=
  match error with
  | ThrownError message => message
  | ThrownOther => "Unknown error"
  end.

(** The error object behind a [Throws] outcome *)
Definition thrown (error : string) : Thrown := ThrownError (message_of error).

(** An async call settles: it resolves with a value or rejects. *)
Inductive Promise (A : Type) : Type :=
| Resolved (a : A)
| Rejected (error : Thrown).
Arguments Resolved {A} a.
Arguments Rejected {A} error.

(** [MCPTool]; [parse] is [inputSchema.parse]. *)
Module MCPTool.
Record t (Val : Type) : Type := mk {
  description : string;
  inputSchema : ZodType;
  parse : Val -> Val + Thrown;
  handler : Val -> Val + Thrown
}.
Arguments mk {Val} description inputSchema parse handler.
Arguments description {Val} _.
Arguments inputSchema {Val} _.
Arguments parse {Val} _ _.
Arguments handler {Val} _ _.
End MCPTool.

(** What [tools[name]] is to [executeTool]: a tool; another truthy
    value, whose [inputSchema] is [undefined]; or a falsy value. *)
Inductive ToolFound (Val : Type) : Type :=
| TF_tool (tool : MCPTool.t Val)
| TF_other
| TF_falsy.
Arguments TF_tool {Val} tool.
Arguments TF_other {Val}.
Arguments TF_falsy {Val}.

(** The own property [k] of a tool object, when it has one: the object
    is a prototype of the collection when the collection was given one. *)
Definition MCPTool_property {Val : Type} (p : MCPTool.t Val) (k : string)
  : option (ToolFound Val) :=
  if String.eqb k "description"
  then Some (if truthy (MCPTool.description p) then TF_other else TF_falsy)
  else if String.eqb k "inputSchema" then Some TF_other
  else if String.eqb k "handler" then Some TF_other
  else None.

(** [tools[name]] *)
Definition tools_get {Val : Type} (tools : JSObject (MCPTool.t Val))
    (name : string) : ToolFound Val :=
  match js_get tools name with
  | R_own tool => TF_tool tool
  | R_prototype p => TF_tool p
  | R_Object_prototype => TF_other
  | R_method _ => TF_other
  | R_via p =>
      match MCPTool_property p name with
      | Some f => f
      | None =>
          if includes Object_prototype_methods name then TF_other else TF_falsy
      end
  | R_undefined => TF_falsy
  end.

(** [MCPMiddlewareOptions]; a callback returns or throws. *)
Module MCPMiddlewareOptions.
Record t : Type := mk {
  auth : option Config.t;
  onAccessDenied : option (string -> RoleValue -> option Thrown);
  onToolExecuted : option (string -> RoleValue -> option Thrown)
}.
End MCPMiddlewareOptions.

(** One element of the [content] array of a tool response; [text] is
    [undefined] when [JSON.stringify] returns [undefined]. *)
Module Content.
Record t : Type := mk {
  type : string;
  text : option string
}.
End Content.

Module ToolResponse.
Record t : Type := mk {
  content : list Content.t;
  isError : option bool
}.
End ToolResponse.

(** One element of the list [getToolsList] returns. *)
Module ToolListing.
Record t : Type := mk {
  name : string;
  description : string;
  inputSchema : obj Json
}.
End ToolListing.

(** What [createMCPMiddleware] closes over besides the auth instance:
    the caller's tool collection, the options, and the role resolved
    once, when the middleware was created. *)
Module Middleware.
Record t : Type := mk {
  tools : ref;
  options : MCPMiddlewareOptions.t;
  role : RoleValue
}.
End Middleware.

(** Calls that [executeTool] makes into code it was given. *)
Inductive Call (Val : Type) : Type :=
| Call_onAccessDenied (toolName : string) (role : RoleValue)
| Call_parse (toolName : string) (args : Val)
| Call_handler (toolName : string) (args : Val)
| Call_onToolExecuted (toolName : string) (role : RoleValue).
Arguments Call_onAccessDenied {Val} toolName role.
Arguments Call_parse {Val} toolName args.
Arguments Call_handler {Val} toolName args.
Arguments Call_onToolExecuted {Val} toolName role.

(** The values of the objects that [executeTool] hands to
    [JSON.stringify]: strings, and the resolved role. *)
Inductive Field : Type :=
| Text (s : string)
| ResolvedRole (role : RoleValue).

(** The character U+0022 *)
Definition double_quote : string :=
  String (Ascii.Ascii false true false false false true false false) EmptyString.

Definition concat_strings (parts : list string) : string :=
  fold_right String.append EmptyString parts.

Section MiddlewareOperations.

(** Values of type [unknown]: tool arguments and results. *)
Variable Val : Type.

(** [{}] *)
Variable empty_object : Val.

(** [JSON.stringify] on the objects that [executeTool] builds *)
Variable JSON_stringify : list (string * Field) -> string.

(** [JSON.stringify(result, null, 2)], which returns a string or
    [undefined], or throws *)
Variable JSON_stringify_result : Val -> option string + Thrown.

(** Create MCP middleware that wraps tools with auth.  The second
    component is the auth instance the middleware uses. *)
Definition createMCPMiddleware (tools : ref) (options : MCPMiddlewareOptions.t)
    (env : ProcessEnv) : Middleware.t * Config.t :=
  let auth := default mcpAuth (MCPMiddlewareOptions.auth options) in
  let role := getRoleFromEnv auth env in
  (Middleware.mk tools options role, auth).

(** Get filtered list of tools *)
Definition getToolsList (mw : Middleware.t) (auth : Config.t) (env : ProcessEnv)
    (h : heap (MCPTool.t Val)) : list ToolListing.t * heap (MCPTool.t Val) :=
  let (filteredTools, h') :=
    filterTools auth env all_objects h (Middleware.tools mw) None in
  (map (fun kv =>
          {| ToolListing.name := fst kv;
             ToolListing.description := MCPTool.description (snd kv);
             ToolListing.inputSchema :=
               zodToJsonSchema (MCPTool.inputSchema (snd kv)) |})
       (entries (own (deref h' filteredTools))),
   h').

Definition error_response (text : string) : ToolResponse.t :=
  {| ToolResponse.content := [Content.mk "text" (Some text)];
     ToolResponse.isError := Some true |}.

Definition access_denied_response (name : string) (role : RoleValue)
  : ToolResponse.t :=
  error_response
    (JSON_stringify
       [("error"%string,
         Text (concat_strings
                 ["Access denied: Tool "%string; double_quote; name;
                  double_quote; " is not available for role "%string;
                  double_quote; key_of role; double_quote]));
        ("role"%string, ResolvedRole role);
        ("hint"%string, Text "This tool requires higher privileges.")]).

Definition unknown_tool_response (name : string) : ToolResponse.t :=
  error_response
    (JSON_stringify
       [("error"%string, Text (String.append "Unknown tool: " name))]).

Definition caught_response (error : Thrown) : ToolResponse.t :=
  error_response (JSON_stringify [("error"%string, Text (error_message error))]).

(** Execute a tool with permission check.  The second component lists,
    in order, the calls made into the tool and the callbacks.  The
    permission check stands outside the [try], so an error it throws
    rejects the promise. *)
Definition executeTool (mw : Middleware.t) (auth : Config.t) (env : ProcessEnv)
    (h : heap (MCPTool.t Val)) (name : string) (args : option Val)
  : Promise ToolResponse.t * list (Call Val) :=
  let options := Middleware.options mw in
  let role := Middleware.role mw in
  match isToolAllowed auth env name None with
  | Throws error => (Rejected (thrown error), [])
  | Returns false =>
      match MCPMiddlewareOptions.onAccessDenied options with
      | Some callback =>
          match callback name role with
          | Some error => (Rejected error, [Call_onAccessDenied name role])
          | None =>
              (Resolved (access_denied_response name role),
               [Call_onAccessDenied name role])
          end
      | None => (Resolved (access_denied_response name role), [])
      end
  | Returns true =>
      match tools_get (deref h (Middleware.tools mw)) name with
      | TF_falsy => (Resolved (unknown_tool_response name), [])
      | TF_other =>
          (Resolved (caught_response (ThrownError (reading "parse"))), [])
      | TF_tool tool =>
          let input := default empty_object args in
          match MCPTool.parse tool input with
          | inr error =>
              (Resolved (caught_response error), [Call_parse name input])
          | inl validatedArgs =>
              match MCPTool.handler tool validatedArgs with
              | inr error =>
                  (Resolved (caught_response error),
                   [Call_parse name input; Call_handler name validatedArgs])
              | inl result =>
                  let executed :=
                    match MCPMiddlewareOptions.onToolExecuted options with
                    | Some callback =>
                        (callback name role, [Call_onToolExecuted name role])
                    | None => (None, [])
                    end in
                  let calls :=
                    [Call_parse name input; Call_handler name validatedArgs]
                    ++ snd executed in
                  match fst executed with
                  | Some error => (Resolved (caught_response error), calls)
                  | None =>
                      match JSON_stringify_result result with
                      | inr error => (Resolved (caught_response error), calls)
                      | inl text =>
                          (Resolved {| ToolResponse.content :=
                                         [Content.mk "text" text];
                                       ToolResponse.isError := None |},
                           calls)
                      end
                  end
              end
          end
      end
  end.

(** [getRole: () => role] *)
Definition getRole (mw : Middleware.t) : RoleValue := Middleware.role mw.

End MiddlewareOperations.

(** ** Plugin tools (plugin.ts) *)

Module PermissionCheck.
Record t : Type := mk {
  tool : string;
  role : RoleValue;
  allowed : bool;
  message : string
}.
End PermissionCheck.

(** The handler of [mcp_auth_check_permission]; [authInstance] is the
    module variable, [null] before [onLoad] and after [onUninstall].
    The handler is async: an error thrown inside it rejects. *)
Definition mcp_auth_check_permission (authInstance : option Config.t)
    (env : ProcessEnv) (toolName : string) (role : option string)
  : Promise (PermissionCheck.t + string) :=
  match authInstance with
  | None => Resolved (inr "Auth not initialized"%string)
  | Some auth =>
      let role := currentRole auth env (option_map Role role) in
      match isToolAllowed auth env toolName (Some role) with
      | Throws error => Rejected (thrown error)
      | Returns allowed =>
          Resolved
            (inl {| PermissionCheck.tool := toolName;
                    PermissionCheck.role := role;
                    PermissionCheck.allowed := allowed;
                    PermissionCheck.message :=
                      if allowed
                      then concat_strings
                             ["Tool '"%string; toolName;
                              "' is allowed for role '"%string; key_of role;
                              "'"%string]
                      else concat_strings
                             ["Tool '"%string; toolName;
                              "' is NOT allowed for role '"%string; key_of role;
                              "'"%string] |})
      end
  end.

(** ** Sample tools *)

Definition echo_tool : MCPTool.t string :=
  MCPTool.mk "Echo the input" (ZodObject [("text"%string, ZodString None)])
             (fun input => inl input) (fun input => inl input).

Definition failing_tool : MCPTool.t string :=
  MCPTool.mk "Always fails" (ZodObject [])
             (fun input => inl input)
             (fun _ => inr (ThrownError "boom")).

Definition sample_mcp_tools : JSObject (MCPTool.t string) :=
  plain [("list_entries"%string, echo_tool);
         ("create_user"%string, failing_tool)].

(** Stand-ins for [JSON.stringify]: the [error] field, and the value. *)
Definition sample_stringify (fields : list (string * Field)) : string :=
  match obj_get "error" fields with
  | Some (Text s) => s
  | _ => ""%string
  end.

Definition sample_stringify_result (result : string) : option string + Thrown :=
  inl (Some result).

Definition no_options : MCPMiddlewareOptions.t :=
  MCPMiddlewareOptions.mk (Some sample_config) None None.

(** ** Facts about objects and the heap *)

Section ObjectFacts.
Context {T : Type}.
Implicit Types (o acc : obj T) (h : heap T) (k : string) (v : T).

Lemma truthy_true_iff (s : string) : truthy s = true <-> s <> ""%string.
Proof.
  unfold truthy. rewrite negb_true_iff. apply String.eqb_neq.
Qed.

Lemma truthy_false_iff (s : string) : truthy s = false <-> s = ""%string.
Proof.
  unfold truthy. rewrite negb_false_iff. apply String.eqb_eq.
Qed.

Lemma includes_In (arr : list string) (x : string) :
  includes arr x = true <-> In x arr.
Proof.
  unfold includes. rewrite existsb_exists. split.
  - intros (y & Hy & He). apply String.eqb_eq in He. now subst.
  - intros Hx. exists x. split; [assumption | apply String.eqb_refl].
Qed.

Lemma obj_get_In k v o : obj_get k o = Some v -> In (k, v) o.
Proof.
  induction o as [| [k' v'] o IH]; simpl; [discriminate |].
  destruct (String.eqb_spec k k') as [-> | Hne].
  - intros [= ->]. now left.
  - intros Hget. right. now apply IH.
Qed.

Lemma obj_get_None_keys k o : obj_get k o = None <-> ~ In k (keys o).
Proof.
  induction o as [| [k' v'] o IH]; simpl; [tauto |].
  destruct (String.eqb_spec k k') as [-> | Hne].
  - split; [discriminate | intros Hno; exfalso; apply Hno; now left].
  - rewrite IH. split.
    + intros Hno [Heq | Hin]; [congruence | tauto].
    + tauto.
Qed.

Lemma obj_has_fresh k o :
  (forall k', In k' (keys o) -> String.eqb k' k = false) -> obj_has k o = false.
Proof.
  unfold obj_has. induction o as [| [k' v'] o IH]; simpl; intros Hfresh.
  - reflexivity.
  - rewrite String.eqb_sym, (Hfresh k') by now left.
    apply IH. intros k'' Hin. apply Hfresh. now right.
Qed.

Lemma obj_has_false_iff k o : obj_has k o = false <-> ~ In k (keys o).
Proof.
  rewrite <- obj_get_None_keys. unfold obj_has.
  destruct (obj_get k o); split; congruence.
Qed.

Lemma obj_insert_new_last k v o :
  (forall k', In k' (keys o) -> key_before k k' = false) ->
  obj_insert_new k v o = o ++ [(k, v)].
Proof.
  induction o as [| [k' v'] o IH]; simpl; intros Hlast.
  - reflexivity.
  - rewrite (Hlast k') by now left.
    f_equal. apply IH. intros k'' Hin. apply Hlast. now right.
Qed.

(** The invariant read off a concatenation: both parts satisfy it, and
    every key of the second part is distinct from, and does not precede,
    every key of the first. *)
Lemma own_keys_ok_app (l1 l2 : list string) :
  own_keys_ok (l1 ++ l2) = true ->
  own_keys_ok l1 = true /\ own_keys_ok l2 = true /\
  (forall a b, In a l1 -> In b l2 ->
     String.eqb b a = false /\ key_before b a = false).
Proof.
  induction l1 as [| a l1 IH]; simpl.
  - intros Hok. repeat split; try assumption; contradiction.
  - rewrite andb_true_iff, forallb_app, andb_true_iff.
    intros [[Hl1 Hl2] Hrest]. destruct (IH Hrest) as (Hok1 & Hok2 & Hcross).
    split; [now rewrite Hl1, Hok1 |]. split; [assumption |].
    intros a' b [<- | Hin] Hb.
    + rewrite forallb_forall in Hl2. specialize (Hl2 b Hb).
      apply andb_true_iff in Hl2 as [H1 H2].
      now rewrite negb_true_iff in H1, H2.
    + now apply Hcross.
Qed.

Lemma wf_obj_app o1 o2 : wf_obj (o1 ++ o2) -> wf_obj o1 /\ wf_obj o2.
Proof.
  unfold wf_obj, keys. rewrite map_app. intros Hok.
  apply own_keys_ok_app in Hok. tauto.
Qed.

(** Writing a property that belongs at the end of the enumeration. *)
Lemma obj_set_snoc k v o : wf_obj (o ++ [(k, v)]) -> obj_set k v o = o ++ [(k, v)].
Proof.
  unfold wf_obj, keys. rewrite map_app. simpl. intros Hok.
  apply own_keys_ok_app in Hok as (_ & _ & Hcross).
  unfold obj_set. rewrite obj_has_fresh.
  - apply obj_insert_new_last. intros k' Hin.
    apply (Hcross k' k Hin). now left.
  - intros k' Hin. rewrite String.eqb_sym. apply (Hcross k' k Hin). now left.
Qed.

Lemma forallb_keys_filter (P : string -> bool) (q : string * T -> bool) o :
  forallb P (keys o) = true -> forallb P (keys (List.filter q o)) = true.
Proof.
  induction o as [| kv o IH]; simpl; [easy |].
  rewrite andb_true_iff. intros [Hk Ho].
  destruct (q kv); simpl; [rewrite Hk |]; now apply IH.
Qed.

Lemma wf_obj_filter (q : string * T -> bool) o :
  wf_obj o -> wf_obj (List.filter q o).
Proof.
  unfold wf_obj. induction o as [| kv o IH]; simpl; [easy |].
  rewrite andb_true_iff. intros [Hk Ho].
  destruct (q kv); simpl.
  - rewrite (forallb_keys_filter _ q o Hk). now apply IH.
  - now apply IH.
Qed.

Lemma obj_get_of_In k v o : wf_obj o -> In (k, v) o -> obj_get k o = Some v.
Proof.
  unfold wf_obj. induction o as [| [k' v'] o IH]; simpl; [tauto |].
  rewrite andb_true_iff. intros [Hk Ho] [Heq | Hin].
  - injection Heq as -> ->. now rewrite String.eqb_refl.
  - rewrite forallb_forall in Hk.
    assert (Hne : String.eqb k k' = false).
    { specialize (Hk k (in_map fst _ _ Hin)).
      apply andb_true_iff in Hk as [Hk _]. now rewrite negb_true_iff in Hk. }
    rewrite Hne. now apply IH.
Qed.

Lemma obj_get_of_key k o : In k (keys o) -> exists v, obj_get k o = Some v.
Proof.
  unfold keys. induction o as [| [k' v'] o IH]; simpl; [contradiction |].
  intros [-> | Hin].
  - rewrite String.eqb_refl. now exists v'.
  - destruct (String.eqb k k'); [now exists v' | now apply IH].
Qed.

Lemma filter_twice (q : string * T -> bool) o :
  List.filter q (List.filter q o) = List.filter q o.
Proof.
  induction o as [| kv o IH]; simpl; [reflexivity |].
  destruct (q kv) eqn:Hq; simpl; [rewrite Hq; f_equal |]; exact IH.
Qed.

Lemma filter_same (q1 q2 : string * T -> bool) o :
  (forall kv, In kv o -> q1 kv = q2 kv) -> List.filter q1 o = List.filter q2 o.
Proof.
  induction o as [| kv o IH]; simpl; intros Hsame; [reflexivity |].
  rewrite (Hsame kv) by now left.
  rewrite IH by (intros kv' Hin; apply Hsame; now right). reflexivity.
Qed.

Lemma filter_keys (p : string -> bool) o :
  keys (List.filter (fun kv => p (fst kv)) o) = List.filter p (keys o).
Proof.
  unfold keys. induction o as [| [k v] o IH]; simpl; [reflexivity |].
  destruct (p k); simpl; now rewrite IH.
Qed.

Lemma filter_all (q : string * T -> bool) o :
  (forall kv, In kv o -> q kv = true) -> List.filter q o = o.
Proof.
  induction o as [| kv o IH]; simpl; intros Hall; [reflexivity |].
  rewrite (Hall kv) by now left. f_equal. apply IH.
  intros kv' Hin. apply Hall. now right.
Qed.

Lemma filter_none (q : string * T -> bool) o :
  (forall kv, In kv o -> q kv = false) -> List.filter q o = [].
Proof.
  induction o as [| kv o IH]; simpl; intros Hnone; [reflexivity |].
  rewrite (Hnone kv) by now left. apply IH.
  intros kv' Hin. apply Hnone. now right.
Qed.

Lemma obj_has_true_iff k o : obj_has k o = true <-> exists v, obj_get k o = Some v.
Proof.
  unfold obj_has. destruct (obj_get k o) as [v |].
  - split; [now exists v | reflexivity].
  - split; [discriminate | now intros [v Hv]].
Qed.

Lemma assignable_true_iff (k : string) :
  assignable k = true <-> k <> "__proto__"%string.
Proof.
  unfold assignable. rewrite negb_true_iff. apply String.eqb_neq.
Qed.

(** An entry-wise filter that also drops the key ["__proto__"] drops
    nothing more when the object has no such key. *)
Lemma filter_assignable (p : string -> bool) o :
  ~ In "__proto__"%string (keys o) ->
  List.filter (fun kv => p (fst kv) && assignable (fst kv)) o
  = List.filter (fun kv => p (fst kv)) o.
Proof.
  intros Hno. apply filter_same. intros [k v] Hin. simpl.
  assert (Hk : assignable k = true).
  { apply assignable_true_iff. intros ->. apply Hno.
    apply (in_map fst) in Hin. exact Hin. }
  rewrite Hk. apply andb_true_r.
Qed.

(** *** Assignment *)

(** Under a key other than ["__proto__"], or a key the object has as an
    own property, [o[k] = v] defines or overwrites the own property. *)
Lemma assign_ordinary (kind : T -> ValueKind) k v (o : JSObject T) :
  k <> "__proto__"%string \/ obj_has k (own o) = true ->
  assign kind k v o = {| own := obj_set k v (own o); proto := proto o |}.
Proof.
  unfold assign. intros [Hk | Hown].
  - rewrite (proj2 (String.eqb_neq _ _) Hk). now rewrite andb_false_r.
  - now rewrite Hown.
Qed.

(** Under ["__proto__"], on an object that has no such own property and
    that inherits from [Object.prototype], the own properties stay. *)
Lemma assign_proto_own (kind : T -> ValueKind) v (o : JSObject T) :
  obj_has "__proto__" (own o) = false ->
  proto o <> Null_prototype ->
  own (assign kind "__proto__" v o) = own o.
Proof.
  unfold assign. intros -> Hproto. simpl.
  destruct (proto o); [| | congruence]; now destruct (kind v).
Qed.

(** The loop of [filterTools] on the object it fills: of the selected
    entries of a well-formed object it copies, in order, those whose key
    is not ["__proto__"]. *)
Lemma copy_selected (kind : T -> ValueKind) (p : string -> bool) (l : obj T)
    (o : JSObject T) :
  wf_obj l ->
  wf_obj (own o
          ++ List.filter (fun kv => p (fst kv) && assignable (fst kv)) l) ->
  ~ In "__proto__"%string (keys (own o)) ->
  (proto o = Null_prototype -> ~ In "__proto__"%string (keys l)) ->
  own (fold_left
         (fun a kv => if p (fst kv) then assign kind (fst kv) (snd kv) a else a)
         l o)
  = own o ++ List.filter (fun kv => p (fst kv) && assignable (fst kv)) l.
Proof.
  revert o. induction l as [| [k v] l IH]; simpl; intros o Hl Hwf Hown Hnull.
  - now rewrite app_nil_r.
  - assert (Hl' : wf_obj l).
    { now apply (wf_obj_app [(k, v)] l) in Hl. }
    destruct (p k) eqn:Hp; simpl in *.
    + destruct (String.eqb_spec k "__proto__") as [-> | Hk].
      * assert (Hfresh : ~ In "__proto__"%string (keys l)).
        { unfold wf_obj in Hl. simpl in Hl. apply andb_true_iff in Hl as [Hl _].
          rewrite forallb_forall in Hl. intros Hin. specialize (Hl _ Hin).
          rewrite String.eqb_refl in Hl. discriminate. }
        unfold assignable in Hwf at 1. simpl in Hwf.
        unfold assignable at 1. simpl.
        assert (Hhas : obj_has "__proto__" (own o) = false)
          by now apply obj_has_false_iff.
        assert (Hproto : proto o <> Null_prototype) by tauto.
        rewrite IH; try assumption.
        -- now rewrite assign_proto_own.
        -- now rewrite assign_proto_own.
        -- now rewrite assign_proto_own.
        -- intros _. exact Hfresh.
      * assert (Hass : assignable k = true) by now apply assignable_true_iff.
        rewrite Hass in *. simpl in *.
        replace (own o ++ (k, v) :: List.filter
                   (fun kv => p (fst kv) && assignable (fst kv)) l)
          with ((own o ++ [(k, v)]) ++ List.filter
                   (fun kv => p (fst kv) && assignable (fst kv)) l) in *
          by now rewrite <- app_assoc.
        rewrite assign_ordinary by now left.
        assert (Hset : obj_set k v (own o) = own o ++ [(k, v)]).
        { apply obj_set_snoc. now apply wf_obj_app in Hwf. }
        rewrite IH; simpl; rewrite ?Hset; try assumption.
        -- reflexivity.
        -- unfold keys. rewrite map_app, in_app_iff. simpl. intuition congruence.
        -- intros Hproto Hin. apply (Hnull Hproto). now right.
    + apply IH; try assumption.
      intros Hproto Hin. apply (Hnull Hproto). now right.
Qed.

(** *** The heap *)

Lemma deref_alloc_empty h (r : ref) : deref (h ++ [plain []]) r = deref h r.
Proof.
  unfold deref. destruct (Nat.lt_ge_cases r (length h)) as [Hlt | Hge].
  - now rewrite lookup_app_l.
  - rewrite (lookup_ge_None_2 h r Hge).
    destruct (Nat.eq_dec r (length h)) as [-> | Hne].
    + now rewrite list_lookup_middle.
    + rewrite lookup_ge_None_2; [reflexivity |].
      rewrite length_app. simpl. lia.
Qed.

Lemma deref_snoc h (o : JSObject T) : deref (h ++ [o]) (length h) = o.
Proof.
  unfold deref. now rewrite list_lookup_middle.
Qed.

Lemma lookup_alloc_old h (o : JSObject T) (r : ref) (x : JSObject T) :
  h !! r = Some x -> (h ++ [o]) !! r = Some x.
Proof.
  intros Hr. rewrite lookup_app_l; [assumption |].
  apply lookup_lt_is_Some. now exists x.
Qed.

(** The loop of [filterTools] on the heap: only the object at
    [filtered] changes. *)
Lemma heap_copy_selected (kind : T -> ValueKind) (p : string -> bool)
    (l : obj T) h (filtered : ref) :
  filtered < length h ->
  fold_left
    (fun hh kv =>
       if p (fst kv) then heap_assign kind filtered (fst kv) (snd kv) hh else hh)
    l h
  = <[filtered :=
        fold_left
          (fun a kv => if p (fst kv) then assign kind (fst kv) (snd kv) a else a)
          l (deref h filtered)]> h.
Proof.
  revert h. induction l as [| [k v] l IH]; simpl; intros h Hlt.
  - symmetry. apply list_insert_id. unfold deref.
    destruct (lookup_lt_is_Some_2 h filtered Hlt) as [x ->]. reflexivity.
  - destruct (p k).
    + rewrite IH by (unfold heap_assign; now rewrite length_insert).
      unfold heap_assign. rewrite list_insert_insert_eq. f_equal.
      unfold deref at 1. now rewrite list_lookup_insert_eq.
    + now apply IH.
Qed.

End ObjectFacts.

(** *** Assignment keeps an object well formed and acts as a map update *)

Section ObjectInvariant.
Context {T : Type}.
Implicit Types (o : obj T) (k : string) (v : T).

Lemma key_before_asym k k' : key_before k k' = true -> key_before k' k = false.
Proof.
  unfold key_before.
  destruct (array_index k) as [a |], (array_index k') as [b |];
    try discriminate; try reflexivity.
  rewrite N.ltb_lt, N.ltb_ge. lia.
Qed.

Lemma key_before_trans_l k k' x :
  key_before k k' = true -> key_before x k = true -> key_before x k' = true.
Proof.
  unfold key_before.
  destruct (array_index k) as [a |], (array_index k') as [b |],
           (array_index x) as [c |]; try discriminate; try reflexivity.
  rewrite !N.ltb_lt. lia.
Qed.

Lemma keys_obj_replace k v o : keys (obj_replace k v o) = keys o.
Proof.
  unfold keys. induction o as [| [k' v'] o IH]; simpl; [reflexivity |].
  destruct (String.eqb k k'); simpl; [reflexivity | now rewrite IH].
Qed.

Lemma In_keys_obj_insert_new k v o x :
  In x (keys (obj_insert_new k v o)) <-> x = k \/ In x (keys o).
Proof.
  unfold keys. induction o as [| [k' v'] o IH]; simpl.
  - split; intros [H | H]; auto.
  - destruct (key_before k k'); simpl; [| rewrite IH]; intuition auto.
Qed.

Lemma own_keys_ok_cons_iff k (ks : list string) :
  own_keys_ok (k :: ks) = true <->
  (forall x, In x ks -> String.eqb x k = false /\ key_before x k = false) /\
  own_keys_ok ks = true.
Proof.
  simpl. rewrite andb_true_iff, forallb_forall.
  split; intros [Hk Hks]; (split; [| assumption]); intros x Hx.
  - specialize (Hk x Hx). apply andb_true_iff in Hk as [H1 H2].
    now rewrite negb_true_iff in H1, H2.
  - destruct (Hk x Hx) as [-> ->]. reflexivity.
Qed.

Lemma obj_insert_new_wf k v o :
  obj_get k o = None -> wf_obj o -> wf_obj (obj_insert_new k v o).
Proof.
  unfold wf_obj. induction o as [| [k' v'] o IH]; intros Hfresh Hwf.
  - reflexivity.
  - simpl in Hfresh. destruct (String.eqb_spec k k') as [| Hne];
      [discriminate |].
    assert (Hwf' := Hwf). change (keys ((k', v') :: o)) with (k' :: keys o) in Hwf'.
    apply own_keys_ok_cons_iff in Hwf' as [Hhead Htail].
    simpl. destruct (key_before k k') eqn:Hbefore.
    + change (keys ((k, v) :: (k', v') :: o)) with (k :: keys ((k', v') :: o)).
      apply own_keys_ok_cons_iff. split; [| exact Hwf].
      intros x [<- | Hx]; simpl.
      * split; [apply String.eqb_neq; congruence | now apply key_before_asym].
      * split.
        -- apply String.eqb_neq. intros ->.
           now apply obj_get_None_keys in Hfresh.
        -- destruct (key_before x k) eqn:Hxk; [| reflexivity].
           destruct (Hhead x Hx) as [_ Hcontra].
           rewrite (key_before_trans_l k k' x Hbefore Hxk) in Hcontra.
           discriminate.
    + change (keys ((k', v') :: obj_insert_new k v o))
        with (k' :: keys (obj_insert_new k v o)).
      apply own_keys_ok_cons_iff. split; [| now apply IH].
      intros x Hx. apply In_keys_obj_insert_new in Hx as [-> | Hx].
      * split; [now apply String.eqb_neq | assumption].
      * now apply Hhead.
Qed.

Lemma obj_set_wf k v o : wf_obj o -> wf_obj (obj_set k v o).
Proof.
  intros Hwf. unfold obj_set, obj_has.
  destruct (obj_get k o) eqn:Hget.
  - unfold wf_obj. now rewrite keys_obj_replace.
  - now apply obj_insert_new_wf.
Qed.

Lemma obj_assign_wf (target source : obj T) :
  wf_obj target -> wf_obj (obj_assign target source).
Proof.
  unfold obj_assign, entries. revert target.
  induction source as [| kv source IH]; simpl; intros target Hwf;
    [assumption |].
  apply IH. now apply obj_set_wf.
Qed.

Lemma obj_get_replace k v o k0 :
  obj_get k0 (obj_replace k v o)
  = if String.eqb k0 k then (if obj_has k o then Some v else None)
    else obj_get k0 o.
Proof.
  unfold obj_has. induction o as [| [k' v'] o IH]; simpl.
  - now destruct (String.eqb k0 k).
  - destruct (String.eqb k k') eqn:Hkk'; simpl.
    + apply String.eqb_eq in Hkk'. subst k'.
      now destruct (String.eqb k0 k).
    + rewrite IH. destruct (String.eqb k0 k) eqn:Hk0; [| reflexivity].
      apply String.eqb_eq in Hk0. subst k0. now rewrite Hkk'.
Qed.

Lemma obj_get_insert_new k v o k0 :
  obj_get k o = None ->
  obj_get k0 (obj_insert_new k v o)
  = if String.eqb k0 k then Some v else obj_get k0 o.
Proof.
  induction o as [| [k' v'] o IH]; simpl; intros Hfresh.
  - reflexivity.
  - destruct (String.eqb k k') eqn:Hkk'; [discriminate |].
    destruct (key_before k k'); simpl.
    + reflexivity.
    + rewrite (IH Hfresh).
      destruct (String.eqb k0 k') eqn:Hk0; [| reflexivity].
      apply String.eqb_eq in Hk0. subst k0.
      now rewrite String.eqb_sym, Hkk'.
Qed.

(** Defining [k] and then reading [k0]: last write wins, other keys
    keep their value. *)
Lemma obj_get_set k v o k0 :
  obj_get k0 (obj_set k v o) = if String.eqb k0 k then Some v else obj_get k0 o.
Proof.
  unfold obj_set. destruct (obj_has k o) eqn:Hhas.
  - now rewrite obj_get_replace, Hhas.
  - apply obj_get_insert_new. unfold obj_has in Hhas.
    now destruct (obj_get k o).
Qed.

Lemma obj_get_fresh k o :
  (forall k', In k' (keys o) -> String.eqb k' k = false) -> obj_get k o = None.
Proof.
  intros Hfresh. apply obj_has_fresh in Hfresh. unfold obj_has in Hfresh.
  now destruct (obj_get k o).
Qed.

Lemma wf_obj_cons k v o :
  wf_obj ((k, v) :: o) -> obj_get k o = None /\ wf_obj o.
Proof.
  unfold wf_obj. change (keys ((k, v) :: o)) with (k :: keys o).
  rewrite own_keys_ok_cons_iff. intros [Hhead Htail]. split; [| assumption].
  apply obj_get_fresh. intros k' Hk'. now apply Hhead.
Qed.

(** Copying a well-formed object into an object that ends where the copy
    begins appends it. *)
Lemma obj_assign_append (t s : obj T) : wf_obj (t ++ s) -> obj_assign t s = t ++ s.
Proof.
  unfold obj_assign, entries. revert t.
  induction s as [| [k v] s IH]; simpl; intros t Hwf.
  - now rewrite app_nil_r.
  - replace (t ++ (k, v) :: s) with ((t ++ [(k, v)]) ++ s) in *
      by now rewrite <- app_assoc.
    rewrite obj_set_snoc by now apply wf_obj_app in Hwf.
    now apply IH.
Qed.

(** [{...o}] is a copy of [o]. *)
Lemma obj_assign_nil o : wf_obj o -> obj_assign [] o = o.
Proof.
  intros Hwf. now apply (obj_assign_append [] o).
Qed.

(** Reading [{...t, ...s}]: the source wins. *)
Lemma obj_get_assign k (t s : obj T) :
  wf_obj s ->
  obj_get k (obj_assign t s)
  = match obj_get k s with
    | Some v => Some v
    | None => obj_get k t
    end.
Proof.
  unfold obj_assign, entries. revert t.
  induction s as [| [k1 v1] s IH]; simpl; intros t Hwf; [reflexivity |].
  apply wf_obj_cons in Hwf as [Hfresh Hwf].
  rewrite (IH _ Hwf), obj_get_set.
  destruct (String.eqb k k1) eqn:Hk.
  - apply String.eqb_eq in Hk. subst k1. now rewrite Hfresh.
  - reflexivity.
Qed.

(** A write under a key the search does not accept does not change what
    a search by key finds. *)
Lemma find_obj_replace_rejected (f : string -> bool) k v o :
  f k = false ->
  find (fun kv => f (fst kv)) (obj_replace k v o) = find (fun kv => f (fst kv)) o.
Proof.
  intros Hk. induction o as [| [k' v'] o IH]; simpl; [reflexivity |].
  destruct (String.eqb k k') eqn:Hkk'; simpl.
  - apply String.eqb_eq in Hkk'. subst k'. now rewrite Hk.
  - now rewrite IH.
Qed.

Lemma find_obj_insert_new_rejected (f : string -> bool) k v o :
  f k = false ->
  find (fun kv => f (fst kv)) (obj_insert_new k v o)
  = find (fun kv => f (fst kv)) o.
Proof.
  intros Hk. induction o as [| [k' v'] o IH]; simpl.
  - now rewrite Hk.
  - destruct (key_before k k'); simpl.
    + now rewrite Hk.
    + now rewrite IH.
Qed.

Lemma find_obj_set_rejected (f : string -> bool) k v o :
  f k = false ->
  find (fun kv => f (fst kv)) (obj_set k v o) = find (fun kv => f (fst kv)) o.
Proof.
  intros Hk. unfold obj_set. destruct (obj_has k o).
  - now apply find_obj_replace_rejected.
  - now apply find_obj_insert_new_rejected.
Qed.


End ObjectInvariant.

(** ** Facts about the operations *)

Section OperationFacts.
Variable config : Config.t.
Variable env : ProcessEnv.

Lemma currentRole_explicit (r : RoleValue) :
  truthy_value r = true -> currentRole config env (Some r) = r.
Proof.
  intros Hr. unfold currentRole. now rewrite Hr.
Qed.

Lemma currentRole_key (r : string) :
  r <> ""%string -> currentRole config env (Some (Role r)) = Role r.
Proof.
  intros Hr. apply currentRole_explicit. now apply truthy_true_iff.
Qed.

Lemma role_definition_Some (k : string) (roleConfig : RoleConfig.t) :
  role_definition config k = Some roleConfig <->
  roles_get config k = F_role roleConfig.
Proof.
  unfold role_definition. destruct (roles_get config k); split; congruence.
Qed.

Lemma registered_truthy (k : string) :
  registered config k -> found_truthy (roles_get config k) = true.
Proof.
  intros [rc Hrc]. apply role_definition_Some in Hrc. now rewrite Hrc.
Qed.

Lemma absent_unregistered (k : string) :
  absent config k -> role_definition config k = None.
Proof.
  unfold absent, role_definition. now destruct (roles_get config k).
Qed.

(** An own property of the role table is what a lookup finds. *)
Lemma roles_get_own (k : string) (roleConfig : RoleConfig.t) :
  obj_get k (own (Config.roles config)) = Some roleConfig ->
  roles_get config k = F_role roleConfig.
Proof.
  intros Hget. unfold roles_get, js_get. now rewrite Hget.
Qed.

(** [isToolAllowed], by what the role table yields for the role. *)
Lemma isToolAllowed_by_lookup (toolName : string) (role : option RoleValue) :
  isToolAllowed config env toolName role
  = match roles_get config (key_of (currentRole config env role)) with
    | F_role roleConfig => Returns (permits roleConfig toolName)
    | F_other _ => Throws (TypeError (reading "includes"))
    | _ => Returns false
    end.
Proof.
  unfold isToolAllowed, permits.
  destruct (roles_get config (key_of (currentRole config env role)))
    as [rc | n | |]; simpl; try reflexivity.
  now destruct (RoleConfig.tools rc).
Qed.

(** [getAllowedTools], by what the role table yields for the role. *)
Lemma getAllowedTools_by_lookup (role : RoleValue) :
  getAllowedTools config role
  = match roles_get config (key_of role) with
    | F_role roleConfig =>
        Some (match RoleConfig.tools roleConfig with
              | AllTools => Config.knownTools config
              | ToolList names => names
              end)
    | F_other _ => None
    | _ => Some []
    end.
Proof.
  unfold getAllowedTools.
  destruct (roles_get config (key_of role)) as [rc | n | |]; simpl;
    try reflexivity.
  now destruct (RoleConfig.tools rc).
Qed.

(** [getBlockedTools], by what the role table yields for the role. *)
Lemma getBlockedTools_by_lookup (role : RoleValue) :
  getBlockedTools config role
  = match roles_get config (key_of role) with
    | F_role roleConfig =>
        match RoleConfig.tools roleConfig with
        | AllTools => []
        | ToolList _ => default [] (RoleConfig.blockedTools roleConfig)
        end
    | _ => []
    end.
Proof.
  unfold getBlockedTools.
  now destruct (roles_get config (key_of role)) as [rc | n | |].
Qed.

Lemma filterTools_absent {T : Type} (kind : T -> ValueKind) (h : heap T)
    (tools : ref) role :
  absent config (key_of (currentRole config env role)) ->
  filterTools config env kind h tools role = (length h, h ++ [plain []]).
Proof.
  unfold absent. intros Hget. unfold filterTools. now rewrite Hget.
Qed.


(** The object the loop of [filterTools] builds. *)
Lemma filterTools_loop {T : Type} (kind : T -> ValueKind) (h : heap T)
    (tools : ref) role :
  let roleConfig := roles_get config (key_of (currentRole config env role)) in
  found_truthy roleConfig = true ->
  found_tools roleConfig <> Some AllTools ->
  filterTools config env kind h tools role
  = (length h,
     h ++ [fold_left
             (fun a kv =>
                if includes (allowed_names roleConfig) (fst kv)
                then assign kind (fst kv) (snd kv) a
                else a)
             (own (deref h tools)) (plain [])]).
Proof.
  intros roleConfig Htruthy Htools. unfold filterTools. fold roleConfig.
  rewrite Htruthy. simpl. unfold allowed_names.
  assert (Hloop : forall names,
    fold_left
      (fun hh kv =>
         if includes names (fst kv)
         then heap_assign kind (length h) (fst kv) (snd kv) hh
         else hh)
      (entries (own (deref (h ++ [plain []]) tools))) (h ++ [plain []])
    = h ++ [fold_left
              (fun a kv =>
                 if includes names (fst kv)
                 then assign kind (fst kv) (snd kv) a
                 else a)
              (own (deref h tools)) (plain [])]).
  { intros names.
    rewrite heap_copy_selected by (rewrite length_app; simpl; lia).
    rewrite deref_snoc, deref_alloc_empty. unfold entries.
    replace (length h) with (length h + 0) at 1 by lia.
    now rewrite insert_app_r. }
  destruct (found_tools roleConfig) as [[| names] |]; simpl.
  - congruence.
  - f_equal. apply Hloop.
  - f_equal. apply (Hloop []).
Qed.

(** What [filterTools] returns, by cases: the caller's object, or a
    fresh object with the entries that the role's list names, the key
    ["__proto__"] apart. *)
Lemma filterTools_result {T : Type} (kind : T -> ValueKind) (h : heap T)
    (tools : ref) role :
  wf_obj (own (deref h tools)) ->
  let roleConfig := roles_get config (key_of (currentRole config env role)) in
  let res := filterTools config env kind h tools role in
  (found_tools roleConfig = Some AllTools /\ res = (tools, h)) \/
  (found_tools roleConfig <> Some AllTools /\
   exists o : JSObject T,
     res = (length h, h ++ [o]) /\
     own o
     = List.filter
         (fun kv =>
            (found_truthy roleConfig
             && includes (allowed_names roleConfig) (fst kv))
            && assignable (fst kv))
         (own (deref h tools))).
Proof.
  intros Hwf roleConfig res.
  destruct (found_truthy roleConfig) eqn:Htruthy.
  - destruct (found_tools roleConfig) as [[| names] |] eqn:Htools.
    + left. split; [reflexivity |]. unfold res, filterTools. fold roleConfig.
      now rewrite Htruthy, Htools.
    + right. split; [discriminate |]. eexists. split.
      * unfold res. apply filterTools_loop; fold roleConfig;
          [assumption | congruence].
      * fold roleConfig.
        rewrite copy_selected; simpl; try assumption; try tauto;
          try discriminate.
        now apply wf_obj_filter.
    + right. split; [discriminate |]. eexists. split.
      * unfold res. apply filterTools_loop; fold roleConfig;
          [assumption | congruence].
      * fold roleConfig.
        rewrite copy_selected; simpl; try assumption; try tauto;
          try discriminate.
        now apply wf_obj_filter.
  - right. split.
    + destruct roleConfig; simpl in *; congruence.
    + exists (plain []). split.
      * unfold res. now apply filterTools_absent.
      * simpl. symmetry. now apply filter_none.
Qed.


(** The prefix map after [mapApiKey]. *)
Lemma mapApiKey_ordinary (prefix role : string) :
  prefix <> "__proto__"%string ->
  Config.apiKeyMap (mapApiKey config prefix role)
  = obj_set prefix role (Config.apiKeyMap config).
Proof.
  intros Hprefix. unfold mapApiKey. simpl.
  now rewrite assign_ordinary by now left.
Qed.

Lemma mapApiKey_proto (role : string) :
  obj_has "__proto__" (Config.apiKeyMap config) = false ->
  Config.apiKeyMap (mapApiKey config "__proto__" role)
  = Config.apiKeyMap config.
Proof.
  intros Hhas. unfold mapApiKey, assign. simpl. now rewrite Hhas.
Qed.

Lemma apiKeyMap_get_mapApiKey (prefix role p : string) :
  prefix <> "__proto__"%string ->
  apiKeyMap_get (mapApiKey config prefix role) p
  = if String.eqb p prefix then Some (Role role) else apiKeyMap_get config p.
Proof.
  intros Hprefix. unfold apiKeyMap_get.
  rewrite (mapApiKey_ordinary prefix role Hprefix).
  unfold js_get. simpl. rewrite obj_get_set.
  now destruct (String.eqb p prefix).
Qed.

Lemma apply_mutations_knownTools (ms : list Mutation) :
  Config.knownTools (apply_mutations config ms) = Config.knownTools config.
Proof.
  unfold apply_mutations. revert config.
  induction ms as [| m ms IH]; intros c; simpl; [reflexivity |].
  rewrite IH. now destruct m.
Qed.

End OperationFacts.

(** ** Permission Evaluator *)

(** C3, as stated, fails: an empty role argument is treated as omitted,
    so [isToolAllowed(x, "")] evaluates the role resolved from the
    environment.  Here the empty key is unregistered, the environment
    claims the wildcard role, and the answer is [true]. *)
Lemma isToolAllowed_empty_role_follows_env :
  role_definition sample_config ""%string = None /\
  isToolAllowed sample_config admin_env "create_user" (Some (Role ""%string))
  = Returns true.
Proof.
  split; reflexivity.
Qed.

(** C3, amended: for every Policy Store state, every non-empty role key
    [r] and every operation name [x], [isToolAllowed(x, r)] is false if
    the role table has nothing under [r], true if [r] is registered and
    its permitted set is the wildcard, and, if [r] is registered with an
    explicit permitted set, a boolean that is true exactly when [x] is in
    that set. *)
Theorem isToolAllowed_decision (config : Config.t) (env : ProcessEnv)
    (r x : string) :
  r <> ""%string ->
  (absent config r ->
   isToolAllowed config env x (Some (Role r)) = Returns false) /\
  (forall roleConfig,
     role_definition config r = Some roleConfig ->
     RoleConfig.tools roleConfig = AllTools ->
     isToolAllowed config env x (Some (Role r)) = Returns true) /\
  (forall roleConfig names,
     role_definition config r = Some roleConfig ->
     RoleConfig.tools roleConfig = ToolList names ->
     exists b,
       isToolAllowed config env x (Some (Role r)) = Returns b /\
       (b = true <-> In x names)).
Proof.
  intros Hr. rewrite isToolAllowed_by_lookup, (currentRole_key config env r Hr).
  simpl. split; [| split].
  - unfold absent. now destruct (roles_get config r).
  - intros rc Hrc Hall. apply role_definition_Some in Hrc.
    rewrite Hrc. unfold permits. now rewrite Hall.
  - intros rc names Hrc Hlist. apply role_definition_Some in Hrc.
    rewrite Hrc. unfold permits. rewrite Hlist.
    exists (includes names x). split; [reflexivity | apply includes_In].
Qed.

Lemma isToolAllowed_decision_witness :
  "viewer"%string <> ""%string /\
  exists b,
    isToolAllowed sample_config admin_env "get_entry" (Some (Role "viewer"))
    = Returns b /\
    (b = true <-> In "get_entry"%string ["list_entries"%string; "get_entry"%string]).
Proof.
  split; [discriminate |].
  destruct (isToolAllowed_decision sample_config admin_env "viewer" "get_entry")
    as (_ & _ & Hlist); [discriminate |].
  apply (Hlist sample_viewer); reflexivity.
Defined.

(** What is true of [getAllowedTools]: empty when the role table has
    nothing under the key, the known-tools list of the instance when the
    key is registered with the wildcard, the list of the role otherwise. *)
Lemma getAllowedTools_where_defined
    (DEFAULT_ROLES : obj RoleConfig.t) (DEFAULT_KNOWN_TOOLS : list string)
    (DEFAULT_defaultRole DEFAULT_roleEnvVar DEFAULT_apiKeyEnvVar : string)
    (userConfig : MCPAuthConfig.t) (ms : list Mutation) (r : string) :
  let config :=
    apply_mutations
      (createMCPAuth DEFAULT_ROLES DEFAULT_KNOWN_TOOLS DEFAULT_defaultRole
                     DEFAULT_roleEnvVar DEFAULT_apiKeyEnvVar userConfig) ms in
  (absent config r -> getAllowedTools config (Role r) = Some []) /\
  (forall roleConfig,
     role_definition config r = Some roleConfig ->
     RoleConfig.tools roleConfig = AllTools ->
     getAllowedTools config (Role r)
     = Some (default DEFAULT_KNOWN_TOOLS (MCPAuthConfig.knownTools userConfig))) /\
  (forall roleConfig names,
     role_definition config r = Some roleConfig ->
     RoleConfig.tools roleConfig = ToolList names ->
     getAllowedTools config (Role r) = Some names).
Proof.
  intros config. rewrite getAllowedTools_by_lookup. simpl. split; [| split].
  - unfold absent. now destruct (roles_get config r).
  - intros rc Hrc Hall. apply role_definition_Some in Hrc. rewrite Hrc, Hall.
    unfold config. now rewrite apply_mutations_knownTools.
  - intros rc names Hrc Hlist. apply role_definition_Some in Hrc.
    now rewrite Hrc, Hlist.
Qed.

(** C8 does not hold of [getAllowedTools]: for a key that names no
    registered role but a method that the role table inherits from
    [Object.prototype], such as [constructor], the lookup
    [config.roles[role]] yields that method, which is truthy and has no
    [tools], and the call returns [undefined] instead of the empty list.
    This is so in the default instance. *)
Theorem getAllowedTools_undefined_for_inherited_key (config : Config.t)
    (r : string) :
  obj_get r (own (Config.roles config)) = None ->
  proto (Config.roles config) = Object_prototype ->
  In r Object_prototype_methods ->
  ~ registered config r /\
  getAllowedTools config (Role r) = None /\
  getAllowedTools config (Role r) <> Some [].
Proof.
  intros Hown Hproto Hin.
  assert (Hnot : String.eqb r "__proto__" = false).
  { apply String.eqb_neq. intros ->. simpl in Hin.
    repeat (destruct Hin as [Hin | Hin]; [discriminate |]). exact Hin. }
  assert (Hget : roles_get config r = F_other (Some (method_name r))).
  { unfold roles_get, js_get. rewrite Hown, Hproto, Hnot.
    now rewrite (proj2 (includes_In _ _) Hin). }
  split; [| split].
  - intros [rc Hrc]. apply role_definition_Some in Hrc. congruence.
  - rewrite getAllowedTools_by_lookup. simpl. now rewrite Hget.
  - rewrite getAllowedTools_by_lookup. simpl. now rewrite Hget.
Qed.

Lemma getAllowedTools_undefined_for_inherited_key_witness :
  ~ registered mcpAuth "constructor" /\
  getAllowedTools mcpAuth (Role "constructor") = None.
Proof.
  destruct (getAllowedTools_undefined_for_inherited_key mcpAuth "constructor")
    as (Hnot & Hnone & _); [reflexivity | reflexivity | simpl; tauto |].
  split; [exact Hnot | exact Hnone].
Defined.

(** C7: [getBlockedTools(r)] is empty when [r] is unregistered or its
    permitted set is the wildcard; otherwise it is the [blockedTools]
    list written in the role definition, or empty when the definition
    has none.  It depends on the role table only, so the known-tools
    universe plays no part in it. *)
Theorem getBlockedTools_documented (config : Config.t) (r : string) :
  (role_definition config r = None -> getBlockedTools config (Role r) = []) /\
  (forall roleConfig,
     role_definition config r = Some roleConfig ->
     RoleConfig.tools roleConfig = AllTools ->
     getBlockedTools config (Role r) = []) /\
  (forall roleConfig names,
     role_definition config r = Some roleConfig ->
     RoleConfig.tools roleConfig = ToolList names ->
     getBlockedTools config (Role r)
     = match RoleConfig.blockedTools roleConfig with
       | Some documented => documented
       | None => []
       end) /\
  (forall config',
     Config.roles config' = Config.roles config ->
     getBlockedTools config' (Role r) = getBlockedTools config (Role r)).
Proof.
  rewrite getBlockedTools_by_lookup. simpl.
  refine (conj _ (conj _ (conj _ _))).
  - unfold role_definition. now destruct (roles_get config r).
  - intros rc Hrc Hall. apply role_definition_Some in Hrc. now rewrite Hrc, Hall.
  - intros rc names Hrc Hlist. apply role_definition_Some in Hrc.
    rewrite Hrc, Hlist. now destruct (RoleConfig.blockedTools rc).
  - intros config' Hroles. rewrite getBlockedTools_by_lookup. simpl.
    unfold roles_get. now rewrite Hroles.
Qed.

(** The documented list of the sample viewer leaves out [create_user],
    which the universe has and the role is not permitted. *)
Lemma getBlockedTools_documented_witness :
  getBlockedTools sample_config (Role "viewer")
  = ["create_entry"%string; "delete_entry"%string] /\
  In "create_user"%string (Config.knownTools sample_config) /\
  isToolAllowed sample_config no_env "create_user" (Some (Role "viewer"))
  = Returns false.
Proof.
  split; [| split; [simpl; tauto | reflexivity]].
  destruct (getBlockedTools_documented sample_config "viewer")
    as (_ & _ & Hdoc & _).
  apply (Hdoc sample_viewer ["list_entries"%string; "get_entry"%string]);
    reflexivity.
Defined.

(** ** Collection Filter *)

(** The filter and the permission check use the same decision. *)
Lemma accepts_by_lookup (config : Config.t) (env : ProcessEnv) (k : string)
    (role : option RoleValue) :
  accepts config env k role
  = match roles_get config (key_of (currentRole config env role)) with
    | F_role roleConfig => permits roleConfig k
    | _ => false
    end.
Proof.
  unfold accepts. rewrite isToolAllowed_by_lookup.
  now destruct (roles_get config (key_of (currentRole config env role))).
Qed.

Lemma accepts_listed (config : Config.t) (env : ProcessEnv) (k : string)
    (role : option RoleValue) :
  let roleConfig := roles_get config (key_of (currentRole config env role)) in
  found_tools roleConfig <> Some AllTools ->
  accepts config env k role
  = found_truthy roleConfig && includes (allowed_names roleConfig) k.
Proof.
  intros roleConfig. rewrite accepts_by_lookup. fold roleConfig.
  unfold allowed_names, permits.
  destruct roleConfig as [rc | n | |]; simpl; try reflexivity.
  destruct (RoleConfig.tools rc); [congruence | reflexivity].
Qed.

Lemma accepts_wildcard (config : Config.t) (env : ProcessEnv) (k : string)
    (role : option RoleValue) :
  found_tools (roles_get config (key_of (currentRole config env role)))
  = Some AllTools ->
  accepts config env k role = true.
Proof.
  rewrite accepts_by_lookup. unfold permits.
  destruct (roles_get config (key_of (currentRole config env role)));
    simpl; try discriminate.
  now intros [= ->].
Qed.

(** The object [filterTools] returns, and what the call leaves alone:
    every entry of the result is an entry of the collection whose key
    [isToolAllowed] accepts; every such entry is in the result, unless
    its key is ["__proto__"]; and the objects that existed are as they
    were. *)
Lemma filterTools_entries {T : Type} (kind : T -> ValueKind)
    (config : Config.t) (env : ProcessEnv) (h : heap T) (tools : ref)
    (role : option RoleValue) :
  wf_obj (own (deref h tools)) ->
  let res := filterTools config env kind h tools role in
  (forall k v,
     In (k, v) (filtered_entries res) ->
     In (k, v) (own (deref h tools)) /\ accepts config env k role = true) /\
  (forall k v,
     In (k, v) (own (deref h tools)) ->
     accepts config env k role = true ->
     k <> "__proto__"%string ->
     In (k, v) (filtered_entries res)) /\
  (~ In "__proto__"%string (keys (own (deref h tools))) ->
   filtered_entries res
   = List.filter (fun kv => accepts config env (fst kv) role)
                 (own (deref h tools))) /\
  (forall (r : ref) (o : JSObject T), h !! r = Some o -> snd res !! r = Some o).
Proof.
  intros Hwf res.
  destruct (filterTools_result config env kind h tools role Hwf)
    as [[Hall Hres] | [Hlisted (o & Hres & Hown)]];
    fold res in Hres; rewrite Hres; unfold filtered_entries; simpl.
  - refine (conj _ (conj _ (conj _ _))).
    + intros k v Hin. split; [assumption | now apply accepts_wildcard].
    + tauto.
    + intros _. symmetry. apply filter_all. intros kv _.
      now apply accepts_wildcard.
    + tauto.
  - rewrite deref_snoc, Hown.
    assert (Hsame :
      List.filter
        (fun kv =>
           (found_truthy
              (roles_get config (key_of (currentRole config env role)))
            && includes
                 (allowed_names
                    (roles_get config (key_of (currentRole config env role))))
                 (fst kv))
           && assignable (fst kv))
        (own (deref h tools))
      = List.filter
          (fun kv => accepts config env (fst kv) role && assignable (fst kv))
          (own (deref h tools))).
    { apply filter_same. intros kv _. now rewrite accepts_listed. }
    rewrite Hsame.
    refine (conj _ (conj _ (conj _ _))).
    + intros k v Hin. apply filter_In in Hin as [Hin Hq]. simpl in Hq.
      apply andb_true_iff in Hq as [Hq _]. now split.
    + intros k v Hin Hacc Hk. apply filter_In. split; [assumption |]. simpl.
      rewrite Hacc. now apply assignable_true_iff.
    + intros Hno.
      now apply (filter_assignable (fun k => accepts config env k role)).
    + intros r x. apply lookup_alloc_old.
Qed.




(** C9: filtering is idempotent.  For every collection [C] and every role
    argument, given or omitted, filtering the result of [filterTools]
    again under the same role, Policy Store and environment gives an
    object with the same entries. *)
Theorem filterTools_idempotent {T : Type} (kind : T -> ValueKind)
    (config : Config.t) (env : ProcessEnv) (h : heap T) (tools : ref)
    (role : option RoleValue) :
  wf_obj (own (deref h tools)) ->
  let once := filterTools config env kind h tools role in
  let twice := filterTools config env kind (snd once) (fst once) role in
  filtered_entries twice = filtered_entries once.
Proof.
  intros Hwf once twice. unfold filtered_entries.
  destruct (filterTools_result config env kind h tools role Hwf)
    as [[Hall Honce] | [Hlisted (o & Honce & Hown)]]; fold once in Honce.
  - unfold twice. rewrite Honce. simpl. fold once. now rewrite Honce.
  - assert (Hwf' : wf_obj (own (deref (snd once) (fst once)))).
    { rewrite Honce. simpl. rewrite deref_snoc, Hown. now apply wf_obj_filter. }
    destruct (filterTools_result config env kind (snd once) (fst once) role Hwf')
      as [[Hall _] | [_ (o' & Htwice & Hown')]]; [congruence |].
    fold twice in Htwice. rewrite Htwice. simpl. rewrite deref_snoc, Hown'.
    rewrite Honce. simpl. rewrite deref_snoc, Hown.
    apply filter_twice.
Qed.

Lemma filterTools_idempotent_witness :
  wf_obj (own (deref [sample_tools] 0)) /\
  let once :=
    filterTools sample_config no_env all_objects [sample_tools] 0
                (Some (Role "viewer")) in
  filtered_entries (filterTools sample_config no_env all_objects (snd once)
                                (fst once) (Some (Role "viewer")))
  = filtered_entries once.
Proof.
  split; [reflexivity |].
  apply (filterTools_idempotent all_objects sample_config no_env
           [sample_tools] 0 (Some (Role "viewer"))).
  reflexivity.
Defined.

(** ** Identity Resolver *)

Lemma startsWith_literal_prefix (s p : string) :
  startsWith s p = true <-> literal_prefix p s.
Proof.
  unfold startsWith, literal_prefix. revert s.
  induction p as [| a p IH]; intros s.
  - destruct s; simpl; split; intros _; try reflexivity; eexists; reflexivity.
  - destruct s as [| b s]; simpl.
    + split; [discriminate | intros [rest Hrest]; discriminate].
    + destruct (Ascii.ascii_dec a b) as [-> | Hne].
      * rewrite IH. split; intros [rest Hrest]; exists rest.
        -- now rewrite Hrest.
        -- now injection Hrest.
      * split; [discriminate |].
        intros [rest Hrest]. injection Hrest as Hab _. congruence.
Qed.

Lemma substring0_prefix (n : nat) (s : string) :
  literal_prefix (substring0 n s) s /\
  String.length (substring0 n s) = Nat.min n (String.length s).
Proof.
  unfold substring0, literal_prefix. revert s.
  induction n as [| n IH]; intros s.
  - split; [exists s | ]; now destruct s.
  - destruct s as [| c s]; simpl.
    + split; [now exists EmptyString | reflexivity].
    + destruct (IH s) as [[rest Hrest] Hlen]. split.
      * exists rest. now rewrite <- Hrest.
      * now rewrite Hlen.
Qed.

Lemma find_first_match {A : Type} (f : A -> bool) (pre suf : list A) (x : A) :
  f x = true -> (forall y, In y pre -> f y = false) ->
  find f (pre ++ x :: suf) = Some x.
Proof.
  intros Hx. induction pre as [| y pre IH]; simpl; intros Hpre.
  - now rewrite Hx.
  - rewrite (Hpre y) by now left. apply IH. intros z Hz. apply Hpre. now right.
Qed.

Lemma find_no_match {A : Type} (f : A -> bool) (l : list A) :
  (forall y, In y l -> f y = false) -> find f l = None.
Proof.
  induction l as [| y l IH]; simpl; intros Hl; [reflexivity |].
  rewrite (Hl y) by now left. apply IH. intros z Hz. apply Hl. now right.
Qed.

Lemma startsWith_false (s p : string) :
  ~ literal_prefix p s -> startsWith s p = false.
Proof.
  intros Hno. destruct (startsWith s p) eqn:Hsw; [| reflexivity].
  now apply startsWith_literal_prefix in Hsw.
Qed.

(** A mapping registered under a key is what a lookup in the prefix map
    finds. *)
Lemma apiKeyMap_get_own (config : Config.t) (k role : string) :
  obj_get k (Config.apiKeyMap config) = Some role ->
  apiKeyMap_get config k = Some (Role role).
Proof.
  intros Hget. unfold apiKeyMap_get, js_get. simpl. now rewrite Hget.
Qed.

Lemma getRoleFromApiKey_scan (config : Config.t) (apiKey : string) :
  no_exact_mapping config apiKey ->
  getRoleFromApiKey config apiKey
  = match find (fun kv => startsWith apiKey (fst kv))
               (entries (Config.apiKeyMap config)) with
    | Some (_, role) => Role role
    | None => Role (Config.defaultRole config)
    end.
Proof.
  unfold getRoleFromApiKey. now intros [-> | ->].
Qed.

(** C4, as stated, fails: the fast path is taken only when the role
    mapped to the 14-character prefix is a non-empty string.  Here the
    whole credential is a registered prefix, mapped to the empty role
    key, and the scan answers with the mapping registered before it. *)
Lemma getRoleFromApiKey_exact_mapping_to_empty_role :
  obj_get (substring0 14 "abc") (Config.apiKeyMap nested_prefix_config)
  = Some ""%string /\
  getRoleFromApiKey nested_prefix_config "abc" = Role "roleX" /\
  Role "roleX" <> Role ""%string.
Proof.
  repeat split. discriminate.
Qed.

(** C4, amended: for every credential [c], [getRoleFromApiKey(c)]
    returns the role mapped to the first 14 characters of [c] (the whole
    of [c] if shorter) when a mapping is registered for that prefix with
    a non-empty role; when reading the prefix map under that prefix
    gives nothing or the empty role, the role of the first mapping, in
    the enumeration order of the prefix map, whose prefix is a literal
    prefix of the whole of [c], and the default role if there is none.
    With ["ab"] mapped before ["abc"] in an empty map, ["abcdef"]
    resolves to the role of ["ab"]. *)
Theorem getRoleFromApiKey_first_match (config : Config.t) (c : string) :
  (literal_prefix (substring0 14 c) c /\
   String.length (substring0 14 c) = Nat.min 14 (String.length c)) /\
  (forall role,
     obj_get (substring0 14 c) (Config.apiKeyMap config) = Some role ->
     role <> ""%string ->
     getRoleFromApiKey config c = Role role) /\
  (forall pre keyPrefix role suf,
     no_exact_mapping config c ->
     entries (Config.apiKeyMap config) = pre ++ (keyPrefix, role) :: suf ->
     literal_prefix keyPrefix c ->
     (forall kv, In kv pre -> ~ literal_prefix (fst kv) c) ->
     getRoleFromApiKey config c = Role role) /\
  (no_exact_mapping config c ->
   (forall kv, In kv (entries (Config.apiKeyMap config)) ->
               ~ literal_prefix (fst kv) c) ->
   getRoleFromApiKey config c = Role (Config.defaultRole config)) /\
  (forall roleX roleY,
     Config.apiKeyMap config = [] ->
     getRoleFromApiKey (mapApiKey (mapApiKey config "ab" roleX) "abc" roleY)
                       "abcdef" = Role roleX).
Proof.
  refine (conj _ (conj _ (conj _ (conj _ _)))).
  - apply substring0_prefix.
  - intros role Hget Hrole. unfold getRoleFromApiKey.
    rewrite (apiKeyMap_get_own config _ role Hget). simpl.
    now rewrite (proj2 (truthy_true_iff role) Hrole).
  - intros pre keyPrefix role suf Hno Hentries Hpre Hfirst.
    rewrite (getRoleFromApiKey_scan config c Hno), Hentries.
    rewrite find_first_match; [reflexivity | |].
    + now apply startsWith_literal_prefix.
    + intros kv Hin. apply startsWith_false. now apply Hfirst.
  - intros Hno Hnone. rewrite (getRoleFromApiKey_scan config c Hno).
    rewrite find_no_match; [reflexivity |].
    intros kv Hin. apply startsWith_false. now apply Hnone.
  - intros roleX roleY Hempty.
    unfold getRoleFromApiKey, apiKeyMap_get, mapApiKey. simpl.
    rewrite Hempty. reflexivity.
Qed.

Lemma getRoleFromApiKey_first_match_witness :
  getRoleFromApiKey
    (mapApiKey (mapApiKey sample_config "ab" "roleX") "abc" "roleY") "abcdef"
  = Role "roleX".
Proof.
  destruct (getRoleFromApiKey_first_match sample_config "abcdef")
    as (_ & _ & _ & _ & Hnested).
  apply Hnested. reflexivity.
Defined.

(** Without a direct claim to consider, [getRoleFromEnv] goes on to the
    credential. *)
Lemma getRoleFromEnv_without_claim (config : Config.t) (env : ProcessEnv) :
  direct_claim_ignored config env ->
  getRoleFromEnv config env
  = match env (Config.apiKeyEnvVar config) with
    | Some apiKey =>
        if truthy apiKey then getRoleFromApiKey config apiKey
        else Role (Config.defaultRole config)
    | None => Role (Config.defaultRole config)
    end.
Proof.
  unfold direct_claim_ignored, getRoleFromEnv, absent.
  destruct (env (Config.roleEnvVar config)) as [d |]; [| reflexivity].
  intros [-> | ->]; [reflexivity | now rewrite andb_false_r].
Qed.

(** The step recorded by [resolution_source] is the step that produced
    the role. *)
Lemma getRoleFromEnv_by_source (config : Config.t) (env : ProcessEnv) :
  match resolution_source config env with
  | DirectClaim =>
      option_map Role (env (Config.roleEnvVar config))
      = Some (getRoleFromEnv config env)
  | Credential =>
      exists apiKey,
        env (Config.apiKeyEnvVar config) = Some apiKey /\
        getRoleFromEnv config env = getRoleFromApiKey config apiKey
  | DefaultRole => getRoleFromEnv config env = Role (Config.defaultRole config)
  end.
Proof.
  unfold resolution_source, getRoleFromEnv, truthy_opt.
  destruct (env (Config.roleEnvVar config)) as [d |];
    [destruct (truthy d && found_truthy (roles_get config d));
     [reflexivity |] |];
    (destruct (env (Config.apiKeyEnvVar config)) as [k |];
     [destruct (truthy k); [now exists k | reflexivity] | reflexivity]).
Qed.

(** C5, as stated, fails: a credential that is set but empty is treated
    as absent.  Here the credential variable holds the empty string, the
    empty prefix is mapped to [admin], so derivation on the credential
    gives [admin], and [getRoleFromEnv] returns the default [viewer]. *)
Lemma getRoleFromEnv_skips_empty_credential :
  empty_key_env (Config.roleEnvVar catch_all_config) = None /\
  empty_key_env (Config.apiKeyEnvVar catch_all_config) = Some ""%string /\
  getRoleFromApiKey catch_all_config "" = Role "admin" /\
  getRoleFromEnv catch_all_config empty_key_env = Role "viewer" /\
  Role "viewer" <> Role "admin".
Proof.
  repeat split. discriminate.
Qed.

(** C5, amended: [getRoleFromEnv()] returns the direct role claim when it
    is set, non-empty and names a registered role.  When the direct
    claim is unset, empty, or names a key the role table has nothing
    under, it returns the result of [getRoleFromApiKey] on the credential
    if the credential variable holds a non-empty string, and otherwise
    the configured default role key, whether or not a role with that key
    is registered. *)
Theorem getRoleFromEnv_precedence (config : Config.t) (env : ProcessEnv) :
  (forall directRole,
     env (Config.roleEnvVar config) = Some directRole ->
     directRole <> ""%string ->
     registered config directRole ->
     getRoleFromEnv config env = Role directRole) /\
  (forall apiKey,
     direct_claim_ignored config env ->
     env (Config.apiKeyEnvVar config) = Some apiKey ->
     apiKey <> ""%string ->
     getRoleFromEnv config env = getRoleFromApiKey config apiKey) /\
  (direct_claim_ignored config env ->
   no_credential config env ->
   getRoleFromEnv config env = Role (Config.defaultRole config)).
Proof.
  refine (conj _ (conj _ _)).
  - intros d Hd Hne Hreg. unfold getRoleFromEnv. rewrite Hd.
    rewrite (proj2 (truthy_true_iff d) Hne).
    now rewrite (registered_truthy config d Hreg).
  - intros k Hno Hk Hne. rewrite (getRoleFromEnv_without_claim config env Hno).
    now rewrite Hk, (proj2 (truthy_true_iff k) Hne).
  - intros Hno [Hk | Hk]; rewrite (getRoleFromEnv_without_claim config env Hno);
      now rewrite Hk.
Qed.

(** With nothing in the environment the default comes back although no
    role is registered under it. *)
Lemma getRoleFromEnv_precedence_witness :
  direct_claim_ignored ghost_default_config no_env /\
  no_credential ghost_default_config no_env /\
  role_definition ghost_default_config "ghost" = None /\
  getRoleFromEnv ghost_default_config no_env = Role "ghost".
Proof.
  assert (Hclaim : direct_claim_ignored ghost_default_config no_env)
    by exact I.
  assert (Hcred : no_credential ghost_default_config no_env)
    by (left; reflexivity).
  refine (conj Hclaim (conj Hcred (conj eq_refl _))).
  destruct (getRoleFromEnv_precedence ghost_default_config no_env)
    as (_ & _ & Hdefault).
  exact (Hdefault Hclaim Hcred).
Defined.

(** A direct claim that names a member the role table inherits is
    adopted, although no role is registered under it, and the agent
    counts as authenticated. *)
Lemma getRoleFromEnv_adopts_inherited_claim :
  ~ registered mcpAuth "constructor" /\
  getRoleFromEnv mcpAuth constructor_env = Role "constructor" /\
  AuthResult.authenticated (authenticateAgent mcpAuth constructor_env) = true.
Proof.
  split; [| split; reflexivity].
  intros [roleConfig Hdefinition]. discriminate.
Qed.

(** ** Authorization Facade *)

(** C2, as stated, fails: the identity tag follows the presence of a
    credential in the environment, not the step that resolved the role.
    Here the direct claim [admin] resolves the role while a credential is
    also set, and the identity is the credential tag. *)
Lemma authenticateAgent_tags_credential_beside_claim :
  resolution_source sample_config admin_with_key_env = DirectClaim /\
  AuthResult.authenticated (authenticateAgent sample_config admin_with_key_env)
  = true /\
  AuthResult.userId (authenticateAgent sample_config admin_with_key_env)
  = Some "api-key:sk-live-012345"%string /\
  "api-key:sk-live-012345"%string <> environment_tag.
Proof.
  repeat split. discriminate.
Qed.

(** C2, amended: [authenticateAgent()] returns [authenticated = false]
    with [role = null], [userId = null] and an error string when the
    role table has nothing under the resolved role; when the resolved
    role is registered it returns [authenticated = true] with the
    resolved role, and the identity is the credential tag (["api-key:"]
    followed by the first 14 characters of the credential) whenever the
    credential variable holds a non-empty string, whichever step
    resolved the role, and the fixed tag ["env-role"] when the
    credential variable is unset or empty. *)
Theorem authenticateAgent_result (config : Config.t) (env : ProcessEnv) :
  let role := getRoleFromEnv config env in
  let auth := authenticateAgent config env in
  (absent config (key_of role) ->
   auth = {| AuthResult.authenticated := false;
             AuthResult.role := None;
             AuthResult.userId := None;
             AuthResult.error :=
               Some (String.append "Unknown role: " (key_of role)) |}) /\
  (registered config (key_of role) ->
   AuthResult.authenticated auth = true /\
   AuthResult.role auth = Some role /\
   AuthResult.error auth = None /\
   (forall apiKey,
      env (Config.apiKeyEnvVar config) = Some apiKey ->
      apiKey <> ""%string ->
      AuthResult.userId auth = Some (credential_tag apiKey)) /\
   (no_credential config env ->
    AuthResult.userId auth = Some environment_tag)).
Proof.
  intros role auth. unfold auth, authenticateAgent. fold role. split.
  - unfold absent. now intros ->.
  - intros Hreg. rewrite (registered_truthy config _ Hreg). simpl.
    refine (conj eq_refl (conj eq_refl (conj eq_refl (conj _ _)))).
    + intros k -> Hne. now rewrite (proj2 (truthy_true_iff k) Hne).
    + now intros [-> | ->].
Qed.

Lemma authenticateAgent_result_witness :
  registered sample_config
    (key_of (getRoleFromEnv sample_config admin_with_key_env)) /\
  AuthResult.userId (authenticateAgent sample_config admin_with_key_env)
  = Some (credential_tag "sk-live-0123456789abcdef").
Proof.
  assert (Hreg : registered sample_config
                   (key_of (getRoleFromEnv sample_config admin_with_key_env)))
    by (exists sample_admin; reflexivity).
  split; [exact Hreg |].
  destruct (authenticateAgent_result sample_config admin_with_key_env)
    as (_ & Hok).
  destruct (Hok Hreg) as (_ & _ & _ & Htag & _).
  apply Htag; [reflexivity | discriminate].
Defined.

(** [getAgentInfo] returns exactly when the resolved role is registered,
    or the role table has nothing under it and yields something for the
    default role. *)
Lemma getAgentInfo_returns_iff (config : Config.t) (env : ProcessEnv) :
  returns_normally (getAgentInfo config env)
  <-> registered config (key_of (getRoleFromEnv config env)) \/
      (absent config (key_of (getRoleFromEnv config env)) /\
       roles_get config (Config.defaultRole config) <> F_undefined).
Proof.
  unfold returns_normally, getAgentInfo, registered, absent, role_definition.
  rewrite getAllowedTools_by_lookup.
  destruct (roles_get config (key_of (getRoleFromEnv config env)))
    as [rc | n | |]; simpl.
  - split; [intros _; left; now exists rc | intros _; eexists; reflexivity].
  - split; [intros [a Ha]; discriminate |].
    intros [[rc Hrc] | [Hrc _]]; discriminate.
  - destruct (roles_get config (Config.defaultRole config)) as [rc | n | |];
      try (split; [intros _; right; split; [reflexivity | discriminate]
                  | intros _; eexists; reflexivity]).
    split; [intros [a Ha]; discriminate |].
    intros [[rc Hrc] | [_ Hne]]; [discriminate | congruence].
  - destruct (roles_get config (Config.defaultRole config)) as [rc | n | |];
      try (split; [intros _; right; split; [reflexivity | discriminate]
                  | intros _; eexists; reflexivity]).
    split; [intros [a Ha]; discriminate |].
    intros [[rc Hrc] | [_ Hne]]; [discriminate | congruence].
Qed.

(** Every method other than [getAgentInfo] and [isToolAllowed] returns. *)
Lemma invoke_returns_normally {T : Type} (kind : T -> ValueKind) (m : Method)
    (env : ProcessEnv) (st : State.t T) :
  match m with
  | M_getAgentInfo => True
  | M_isToolAllowed _ _ => True
  | _ => returns_normally (fst (invoke kind m env st))
  end.
Proof.
  unfold returns_normally.
  destruct m; simpl; try (eexists; reflexivity); try exact I.
  destruct (filterTools _ _ _ _ _ _). eexists; reflexivity.
Qed.

(** C1 does not hold of [getAgentInfo]: when the role table has nothing
    under the resolved role and neither under the configured default
    role, the fallback [config.roles[role] ||
    config.roles[config.defaultRole]] is [undefined] and the call throws
    a TypeError instead of returning a summary; the Policy Store and the
    heap are left as they were. *)
Theorem getAgentInfo_throws_without_definition {T : Type}
    (kind : T -> ValueKind) (env : ProcessEnv) (st : State.t T) :
  absent (State.config st) (key_of (getRoleFromEnv (State.config st) env)) ->
  roles_get (State.config st) (Config.defaultRole (State.config st))
  = F_undefined ->
  invoke kind M_getAgentInfo env st
  = (Throws "TypeError: Cannot read properties of undefined (reading 'name')",
     st) /\
  ~ returns_normally (fst (invoke kind M_getAgentInfo env st)).
Proof.
  unfold absent. intros Hrole Hdefault. unfold invoke, getAgentInfo.
  rewrite Hrole, Hdefault. split; [reflexivity |].
  intros [a Ha]. discriminate.
Qed.

Lemma getAgentInfo_throws_without_definition_witness :
  absent ghost_default_config
         (key_of (getRoleFromEnv ghost_default_config no_env)) /\
  roles_get ghost_default_config (Config.defaultRole ghost_default_config)
  = F_undefined /\
  ~ returns_normally
      (fst (invoke all_objects M_getAgentInfo no_env
                   (State.mk ghost_default_config [sample_tools]))).
Proof.
  refine (conj eq_refl (conj eq_refl _)).
  apply (getAgentInfo_throws_without_definition all_objects no_env
           (State.mk ghost_default_config [sample_tools]));
    reflexivity.
Defined.

(** ** Purity and determinism *)

(** [getRoleFromEnv] reads the two designated variables and nothing else. *)
Lemma getRoleFromEnv_reads_two_variables (config : Config.t)
    (env1 env2 : ProcessEnv) :
  env1 (Config.roleEnvVar config) = env2 (Config.roleEnvVar config) ->
  env1 (Config.apiKeyEnvVar config) = env2 (Config.apiKeyEnvVar config) ->
  getRoleFromEnv config env1 = getRoleFromEnv config env2.
Proof.
  intros Hrole Hkey. unfold getRoleFromEnv. now rewrite Hrole, Hkey.
Qed.

(** C10, as stated, fails: a call that passes the empty string as its
    role falls back to the environment, so its result changes with the
    environment although the arguments and the store are the same. *)
Lemma isToolAllowed_empty_role_reads_env :
  names_its_role (M_isToolAllowed "create_user" (Some (Role ""%string))) = true /\
  fst (invoke all_objects (M_isToolAllowed "create_user" (Some (Role ""%string)))
              admin_env (State.mk sample_config [sample_tools]))
  = Returns (V_boolean true) /\
  fst (invoke all_objects (M_isToolAllowed "create_user" (Some (Role ""%string)))
              no_env (State.mk sample_config [sample_tools]))
  = Returns (V_boolean false).
Proof.
  repeat split.
Qed.

(** C10, amended: for a fixed Policy Store, [isToolAllowed] and
    [filterTools] called with a non-empty role argument,
    [getAllowedTools], [getBlockedTools] and [getRoleFromApiKey] return
    the same result and the same state under any two environments, and
    leave the Policy Store as it was; and [getRoleFromEnv] returns the
    same role key under any two environments that agree on the role
    variable and the credential variable, leaving the state unchanged. *)
Theorem explicit_role_calls_ignore_env {T : Type} (kind : T -> ValueKind)
    (m : Method) (env1 env2 : ProcessEnv) (st : State.t T) :
  (names_nonempty_role m = true ->
   invoke kind m env1 st = invoke kind m env2 st /\
   State.config (snd (invoke kind m env1 st)) = State.config st) /\
  (env1 (Config.roleEnvVar (State.config st))
   = env2 (Config.roleEnvVar (State.config st)) ->
   env1 (Config.apiKeyEnvVar (State.config st))
   = env2 (Config.apiKeyEnvVar (State.config st)) ->
   invoke kind M_getRoleFromEnv env1 st = invoke kind M_getRoleFromEnv env2 st /\
   snd (invoke kind M_getRoleFromEnv env1 st) = st).
Proof.
  split.
  - destruct m as [| apiKey | | role | role | toolName [role |]
                   | tools [role |] | | | | key rc | prefix role];
      simpl; try discriminate; intros Hm.
    + now split.
    + now split.
    + now split.
    + unfold isToolAllowed. rewrite !(currentRole_explicit _ _ role Hm).
      split; [reflexivity |].
      destruct (found_truthy _); simpl; [| reflexivity].
      now destruct (found_tools _) as [[| names] |].
    + unfold filterTools. rewrite !(currentRole_explicit _ _ role Hm).
      split; [reflexivity |].
      destruct (found_truthy _); simpl; [| reflexivity].
      now destruct (found_tools _) as [[| names] |].
  - intros Hrole Hkey. simpl.
    rewrite (getRoleFromEnv_reads_two_variables _ env1 env2 Hrole Hkey).
    now split.
Qed.

Lemma explicit_role_calls_ignore_env_witness :
  names_nonempty_role (M_isToolAllowed "create_user" (Some (Role "viewer")))
  = true /\
  invoke all_objects (M_isToolAllowed "create_user" (Some (Role "viewer")))
         admin_env (State.mk sample_config [sample_tools])
  = invoke all_objects (M_isToolAllowed "create_user" (Some (Role "viewer")))
           no_env (State.mk sample_config [sample_tools]).
Proof.
  split; [reflexivity |].
  destruct (explicit_role_calls_ignore_env all_objects
              (M_isToolAllowed "create_user" (Some (Role "viewer")))
              admin_env no_env (State.mk sample_config [sample_tools]))
    as [Hpure _].
  apply Hpure. reflexivity.
Defined.

(** ** How the operations of the instance fit together *)

Lemma accepts_true_iff (config : Config.t) (env : ProcessEnv) (k : string)
    (role : option RoleValue) :
  accepts config env k role = true
  <-> isToolAllowed config env k role = Returns true.
Proof.
  unfold accepts. destruct (isToolAllowed config env k role) as [b | e].
  - split; [now intros -> | now intros [= ->]].
  - split; discriminate.
Qed.

(** X1: listing and gating agree.  For every role argument, given or
    omitted, every entry of the object [filterTools] returns is an entry
    of the collection whose key [isToolAllowed] accepts under the same
    role argument, Policy Store and environment; every entry of the
    collection whose key is accepted is in the result, unless the key is
    ["__proto__"]; and when the collection has no property named
    ["__proto__"], the result holds exactly the accepted entries, in the
    order of the collection. *)
Theorem filterTools_keeps_what_isToolAllowed_accepts {T : Type}
    (kind : T -> ValueKind) (config : Config.t) (env : ProcessEnv)
    (h : heap T) (tools : ref) (role : option RoleValue) :
  wf_obj (own (deref h tools)) ->
  let res := filterTools config env kind h tools role in
  (forall k v,
     In (k, v) (filtered_entries res) ->
     In (k, v) (own (deref h tools)) /\
     isToolAllowed config env k role = Returns true) /\
  (forall k v,
     In (k, v) (own (deref h tools)) ->
     isToolAllowed config env k role = Returns true ->
     k <> "__proto__"%string ->
     In (k, v) (filtered_entries res)) /\
  (~ In "__proto__"%string (keys (own (deref h tools))) ->
   filtered_entries res
   = List.filter (fun kv => accepts config env (fst kv) role)
                 (own (deref h tools)) /\
   keys (filtered_entries res)
   = List.filter (fun k => accepts config env k role)
                 (keys (own (deref h tools)))).
Proof.
  intros Hwf res.
  destruct (filterTools_entries kind config env h tools role Hwf)
    as (Hsub & Hsup & Hexact & _).
  fold res in Hsub, Hsup, Hexact. refine (conj _ (conj _ _)).
  - intros k v Hin. destruct (Hsub k v Hin) as [Hentry Hacc].
    split; [assumption | now apply accepts_true_iff].
  - intros k v Hin Hacc Hk. apply (Hsup k v Hin); [| assumption].
    now apply accepts_true_iff.
  - intros Hno. split; [now apply Hexact |].
    rewrite (Hexact Hno).
    apply (filter_keys (fun k => accepts config env k role)).
Qed.

Lemma filterTools_keeps_what_isToolAllowed_accepts_witness :
  wf_obj (own (deref [sample_tools] 0)) /\
  keys (filtered_entries
          (filterTools sample_config no_env all_objects [sample_tools] 0 None))
  = ["list_entries"%string; "get_entry"%string].
Proof.
  split; [reflexivity |].
  destruct (filterTools_keeps_what_isToolAllowed_accepts all_objects
              sample_config no_env [sample_tools] 0 None) as (_ & _ & Hexact);
    [reflexivity |].
  destruct Hexact as [_ Hkeys].
  - simpl. intros [H | [H | [H | [H | []]]]]; discriminate.
  - rewrite Hkeys. reflexivity.
Defined.

(** X2: a failed authentication denies everything.  When
    [authenticateAgent] reports [authenticated = false], every
    [isToolAllowed] call without a role argument answers false and
    [filterTools] without a role argument returns an empty object. *)
Theorem unauthenticated_agent_is_denied_everything {T : Type}
    (kind : T -> ValueKind) (config : Config.t) (env : ProcessEnv)
    (h : heap T) (tools : ref) (toolName : string) :
  AuthResult.authenticated (authenticateAgent config env) = false ->
  isToolAllowed config env toolName None = Returns false /\
  filtered_entries (filterTools config env kind h tools None) = [].
Proof.
  intros Hauth.
  assert (Hnone : absent config (key_of (getRoleFromEnv config env))).
  { revert Hauth. unfold authenticateAgent, absent.
    now destruct (found_truthy
                    (roles_get config (key_of (getRoleFromEnv config env)))). }
  split.
  - unfold isToolAllowed. simpl. unfold absent in Hnone. now rewrite Hnone.
  - rewrite filterTools_absent by exact Hnone.
    unfold filtered_entries. simpl. now rewrite deref_snoc.
Qed.

Lemma unauthenticated_agent_is_denied_everything_witness :
  AuthResult.authenticated (authenticateAgent ghost_default_config no_env)
  = false /\
  isToolAllowed ghost_default_config no_env "list_entries" None = Returns false.
Proof.
  split; [reflexivity |].
  apply (unauthenticated_agent_is_denied_everything all_objects
           ghost_default_config no_env [sample_tools] 0 "list_entries").
  reflexivity.
Defined.

(** X3: every tool that [getAllowedTools] lists for a non-empty role key
    is accepted by [isToolAllowed] for that role; conversely a tool that
    is accepted is listed unless the role is a wildcard role, which
    accepts every name whether or not the known-tools list has it. *)
Theorem getAllowedTools_lists_accepted_tools (config : Config.t)
    (env : ProcessEnv) (r x : string) :
  r <> ""%string ->
  (forall allowed,
     getAllowedTools config (Role r) = Some allowed ->
     In x allowed ->
     isToolAllowed config env x (Some (Role r)) = Returns true) /\
  (isToolAllowed config env x (Some (Role r)) = Returns true ->
   (exists allowed,
      getAllowedTools config (Role r) = Some allowed /\ In x allowed) \/
   exists roleConfig,
     role_definition config r = Some roleConfig /\
     RoleConfig.tools roleConfig = AllTools).
Proof.
  intros Hr.
  rewrite isToolAllowed_by_lookup, getAllowedTools_by_lookup.
  rewrite (currentRole_key config env r Hr). simpl.
  unfold role_definition, permits.
  destruct (roles_get config r) as [rc | n | |]; simpl.
  - destruct (RoleConfig.tools rc) as [| names] eqn:Htools.
    + split; [reflexivity |]. intros _. right. now exists rc.
    + split.
      * intros allowed [= <-] Hin. f_equal. now apply includes_In.
      * intros [= Hin]. left. exists names. split; [reflexivity |].
        now apply includes_In.
  - split; discriminate.
  - split; [intros allowed [= <-] [] | discriminate].
  - split; [intros allowed [= <-] [] | discriminate].
Qed.

Lemma getAllowedTools_lists_accepted_tools_witness :
  "viewer"%string <> ""%string /\
  getAllowedTools sample_config (Role "viewer")
  = Some ["list_entries"%string; "get_entry"%string] /\
  isToolAllowed sample_config no_env "get_entry" (Some (Role "viewer"))
  = Returns true.
Proof.
  split; [discriminate |]. split; [reflexivity |].
  destruct (getAllowedTools_lists_accepted_tools sample_config no_env "viewer"
              "get_entry") as [Hsound _]; [discriminate |].
  apply (Hsound ["list_entries"%string; "get_entry"%string]);
    [reflexivity | simpl; tauto].
Defined.

(** The role an operation evaluates is a fixed point of the fallback
    [role || getRoleFromEnv()]. *)
Lemma currentRole_idempotent (config : Config.t) (env : ProcessEnv)
    (role : option RoleValue) :
  currentRole config env (Some (currentRole config env role))
  = currentRole config env role.
Proof.
  unfold currentRole at 1.
  destruct (truthy_value (currentRole config env role)) eqn:Htruthy;
    [reflexivity |].
  unfold currentRole in *.
  destruct role as [r |]; [| reflexivity].
  destruct (truthy_value r) eqn:Hr; [congruence | reflexivity].
Qed.

(** X4: the [mcp_auth_check_permission] tool reports the role its
    answer is for.  With the auth instance in place, also for an empty
    or omitted role input, the handler settles as [isToolAllowed] does
    for the same input: when [isToolAllowed] returns, the handler
    resolves with that answer as [allowed] and with the role the answer
    is for as [role], and [allowed] is the decision of the Policy Store
    for the reported role, false if that role is unregistered; when
    [isToolAllowed] throws, the handler rejects with that error. *)
Theorem check_permission_answers_for_reported_role (auth : Config.t)
    (env : ProcessEnv) (toolName : string) (role : option string) :
  match isToolAllowed auth env toolName (option_map Role role) with
  | Returns b =>
      exists result,
        mcp_auth_check_permission (Some auth) env toolName role
        = Resolved (inl result) /\
        PermissionCheck.tool result = toolName /\
        PermissionCheck.role result
        = currentRole auth env (option_map Role role) /\
        PermissionCheck.allowed result = b /\
        isToolAllowed auth env toolName (Some (PermissionCheck.role result))
        = Returns b /\
        b = match role_definition auth (key_of (PermissionCheck.role result)) with
            | Some roleConfig => permits roleConfig toolName
            | None => false
            end
  | Throws error =>
      mcp_auth_check_permission (Some auth) env toolName role
      = Rejected (thrown error)
  end.
Proof.
  assert (Hsame :
    isToolAllowed auth env toolName
      (Some (currentRole auth env (option_map Role role)))
    = isToolAllowed auth env toolName (option_map Role role)).
  { unfold isToolAllowed. now rewrite currentRole_idempotent. }
  unfold mcp_auth_check_permission. rewrite Hsame.
  destruct (isToolAllowed auth env toolName (option_map Role role))
    as [b | e] eqn:Hallowed; [| reflexivity].
  eexists. split; [reflexivity |]. simpl.
  refine (conj eq_refl (conj eq_refl (conj eq_refl (conj Hsame _)))).
  rewrite isToolAllowed_by_lookup in Hallowed. unfold role_definition.
  destruct (roles_get auth
              (key_of (currentRole auth env (option_map Role role))));
    congruence.
Qed.

Lemma authenticateAgent_userId_truthy (config : Config.t) (env : ProcessEnv)
    (u : string) :
  AuthResult.userId (authenticateAgent config env) = Some u -> truthy u = true.
Proof.
  unfold authenticateAgent.
  destruct (negb (found_truthy
                    (roles_get config (key_of (getRoleFromEnv config env)))));
    simpl; [discriminate |].
  intros [= <-].
  destruct (env (Config.apiKeyEnvVar config)) as [k |]; [| reflexivity].
  destruct (truthy k); reflexivity.
Qed.

Lemma getToolFilter_absent (config : Config.t) (env : ProcessEnv) :
  absent config (key_of (getRoleFromEnv config env)) ->
  getToolFilter config env
  = {| ToolFilter.allowedTools :=
         getAllowedTools config (Role (Config.defaultRole config));
       ToolFilter.blockedTools :=
         getBlockedTools config (Role (Config.defaultRole config));
       ToolFilter.role := Role (Config.defaultRole config);
       ToolFilter.userId := "anonymous" |}.
Proof.
  unfold absent. intros Hnone. unfold getToolFilter, authenticateAgent.
  now rewrite Hnone.
Qed.

(** X5: [getToolFilter] falls back to the default role.  When the role
    table has nothing under the resolved role, the filter names the
    default role, lists the default role's allowed and blocked tools and
    the identity ["anonymous"], although every permission check without
    a role argument is refused; when the resolved role is registered and
    non-empty, the filter is that role's, with the identity that
    [authenticateAgent] gives. *)
Theorem getToolFilter_falls_back_to_default (config : Config.t)
    (env : ProcessEnv) :
  let resolved := getRoleFromEnv config env in
  (absent config (key_of resolved) ->
   getToolFilter config env
   = {| ToolFilter.allowedTools :=
          getAllowedTools config (Role (Config.defaultRole config));
        ToolFilter.blockedTools :=
          getBlockedTools config (Role (Config.defaultRole config));
        ToolFilter.role := Role (Config.defaultRole config);
        ToolFilter.userId := "anonymous" |} /\
   forall toolName, isToolAllowed config env toolName None = Returns false) /\
  (registered config (key_of resolved) ->
   truthy_value resolved = true ->
   ToolFilter.role (getToolFilter config env) = resolved /\
   ToolFilter.allowedTools (getToolFilter config env)
   = getAllowedTools config resolved /\
   ToolFilter.blockedTools (getToolFilter config env)
   = getBlockedTools config resolved /\
   Some (ToolFilter.userId (getToolFilter config env))
   = AuthResult.userId (authenticateAgent config env) /\
   ToolFilter.userId (getToolFilter config env) <> "anonymous"%string).
Proof.
  intros resolved. split.
  - intros Hnone. split.
    + now apply getToolFilter_absent.
    + intros toolName. unfold isToolAllowed. simpl. fold resolved.
      unfold absent in Hnone. now rewrite Hnone.
  - intros Hreg Hne.
    assert (Hhas := registered_truthy config _ Hreg).
    assert (Hid : exists u,
               AuthResult.userId (authenticateAgent config env) = Some u /\
               u <> "anonymous"%string).
    { unfold authenticateAgent. fold resolved. rewrite Hhas. simpl.
      eexists. split; [reflexivity |].
      destruct (env (Config.apiKeyEnvVar config)) as [k |]; [| discriminate].
      destruct (truthy k); discriminate. }
    destruct Hid as (u & Hu & Hanon).
    assert (Hrole : AuthResult.role (authenticateAgent config env)
                    = Some resolved).
    { unfold authenticateAgent. fold resolved. now rewrite Hhas. }
    unfold getToolFilter. rewrite Hrole, Hu, Hne.
    rewrite (authenticateAgent_userId_truthy config env u Hu). simpl.
    repeat split. exact Hanon.
Qed.

Lemma getToolFilter_falls_back_to_default_witness :
  absent nested_prefix_config
    (key_of (getRoleFromEnv nested_prefix_config
               (env_of [("AGENT_API_KEY"%string, "abc"%string)]))) /\
  ToolFilter.role
    (getToolFilter nested_prefix_config
       (env_of [("AGENT_API_KEY"%string, "abc"%string)])) = Role "viewer" /\
  isToolAllowed nested_prefix_config
    (env_of [("AGENT_API_KEY"%string, "abc"%string)]) "list_entries" None
  = Returns false.
Proof.
  destruct (getToolFilter_falls_back_to_default nested_prefix_config
              (env_of [("AGENT_API_KEY"%string, "abc"%string)]))
    as [Hfallback _].
  destruct (Hfallback eq_refl) as [Hfilter Hdenied].
  split; [reflexivity |]. split.
  - now rewrite Hfilter.
  - apply Hdenied.
Defined.

(** X6: [getRoles] gives one summary per registered role, in the
    enumeration order of the role table, and the [toolCount] of each
    summary is the number of tools [getAllowedTools] returns for its
    key. *)
Theorem getRoles_summarises_every_role (config : Config.t) :
  wf_obj (own (Config.roles config)) ->
  map RoleInfo.key (getRoles config) = keys (own (Config.roles config)) /\
  (forall info,
     In info (getRoles config) ->
     (exists allowed,
        getAllowedTools config (Role (RoleInfo.key info)) = Some allowed /\
        RoleInfo.toolCount info = length allowed) /\
     exists roleConfig,
       obj_get (RoleInfo.key info) (own (Config.roles config))
       = Some roleConfig /\
       role_definition config (RoleInfo.key info) = Some roleConfig /\
       RoleInfo.name info = RoleConfig.name roleConfig /\
       RoleInfo.description info = RoleConfig.description roleConfig /\
       RoleInfo.accessLevel info = RoleConfig.accessLevel roleConfig).
Proof.
  intros Hwf. unfold getRoles, entries. split.
  - unfold keys. rewrite map_map. now apply map_ext.
  - intros info Hin. apply in_map_iff in Hin as ([k rc] & <- & Hin). simpl.
    assert (Hget := obj_get_of_In k rc _ Hwf Hin).
    assert (Hfound := roles_get_own config k rc Hget).
    rewrite getAllowedTools_by_lookup. simpl. rewrite Hfound. split.
    + eexists. split; [reflexivity |]. now destruct (RoleConfig.tools rc).
    + exists rc. unfold role_definition. now rewrite Hfound.
Qed.

Lemma getRoles_summarises_every_role_witness :
  wf_obj (own (Config.roles mcpAuth)) /\
  map RoleInfo.key (getRoles mcpAuth)
  = ["admin"%string; "editor"%string; "author"%string; "viewer"%string] /\
  map RoleInfo.toolCount (getRoles mcpAuth) = [56; 26; 15; 13].
Proof.
  split; [reflexivity |].
  destruct (getRoles_summarises_every_role mcpAuth) as [Hkeys _];
    [reflexivity |].
  split; [rewrite Hkeys |]; reflexivity.
Defined.

(** X7: the summary of an unregistered role borrows the default role's
    name.  When the role table has nothing under the resolved role and
    the default role is registered, [getAgentInfo] returns the resolved
    role as [role] with the name and description of the default role and
    both counts zero, while [getToolFilter] lists the default role's
    tools. *)
Theorem getAgentInfo_borrows_default_definition (config : Config.t)
    (env : ProcessEnv) (defaultConfig : RoleConfig.t) :
  absent config (key_of (getRoleFromEnv config env)) ->
  role_definition config (Config.defaultRole config) = Some defaultConfig ->
  getAgentInfo config env
  = Returns {| AgentInfo.role := getRoleFromEnv config env;
               AgentInfo.name := Some (RoleConfig.name defaultConfig);
               AgentInfo.description :=
                 Some (RoleConfig.description defaultConfig);
               AgentInfo.allowedToolCount := 0;
               AgentInfo.blockedToolCount := 0 |} /\
  ToolFilter.allowedTools (getToolFilter config env)
  = getAllowedTools config (Role (Config.defaultRole config)).
Proof.
  intros Hnone Hdefault. split.
  - apply role_definition_Some in Hdefault. unfold absent in Hnone.
    unfold getAgentInfo, getAllowedTools, getBlockedTools.
    now rewrite Hnone, Hdefault.
  - now rewrite (getToolFilter_absent config env Hnone).
Qed.

Lemma getAgentInfo_borrows_default_definition_witness :
  absent nested_prefix_config
    (key_of (getRoleFromEnv nested_prefix_config
               (env_of [("AGENT_API_KEY"%string, "abc"%string)]))) /\
  role_definition nested_prefix_config
    (Config.defaultRole nested_prefix_config) = Some sample_viewer /\
  getAgentInfo nested_prefix_config
    (env_of [("AGENT_API_KEY"%string, "abc"%string)])
  = Returns {| AgentInfo.role := Role "roleX";
               AgentInfo.name := Some "Viewer"%string;
               AgentInfo.description := Some "Read-only access"%string;
               AgentInfo.allowedToolCount := 0;
               AgentInfo.blockedToolCount := 0 |}.
Proof.
  split; [reflexivity |]. split; [reflexivity |].
  destruct (getAgentInfo_borrows_default_definition nested_prefix_config
              (env_of [("AGENT_API_KEY"%string, "abc"%string)]) sample_viewer
              eq_refl eq_refl) as [Hinfo _].
  exact Hinfo.
Defined.

(** ** Construction and runtime extension of the Policy Store *)

Lemma DEFAULT_ROLES_wf : wf_obj DEFAULT_ROLES.
Proof. reflexivity. Qed.

(** X8: merging the caller's roles over the built-in ones.  In the
    instance [createMCPAuth(userConfig)] builds, a role key the caller
    supplied has the caller's definition, also when it is a built-in key
    such as [admin]; every other key has its built-in definition or none;
    and the merged role table is a well-formed object. *)
Theorem createMCPAuth_caller_roles_win (userConfig : MCPAuthConfig.t)
    (key : string) :
  wf_obj (default [] (MCPAuthConfig.roles userConfig)) ->
  obj_get key (own (Config.roles (createMCPAuth_builtin userConfig)))
  = match obj_get key (default [] (MCPAuthConfig.roles userConfig)) with
    | Some roleConfig => Some roleConfig
    | None => obj_get key DEFAULT_ROLES
    end /\
  wf_obj (own (Config.roles (createMCPAuth_builtin userConfig))).
Proof.
  intros Hwf. unfold createMCPAuth_builtin, createMCPAuth. simpl. split.
  - rewrite (obj_get_assign key _ _ Hwf).
    now rewrite (obj_assign_nil DEFAULT_ROLES DEFAULT_ROLES_wf).
  - apply obj_assign_wf, obj_assign_wf. reflexivity.
Qed.

Lemma createMCPAuth_caller_roles_win_witness :
  wf_obj (default [] (Some [("admin"%string, sample_viewer)])) /\
  obj_get "admin"
    (own (Config.roles
            (createMCPAuth_builtin
               (MCPAuthConfig.mk (Some [("admin"%string, sample_viewer)])
                                 None None None None None))))
  = Some sample_viewer.
Proof.
  split; [reflexivity |].
  destruct (createMCPAuth_caller_roles_win
              (MCPAuthConfig.mk (Some [("admin"%string, sample_viewer)])
                                None None None None None) "admin")
    as [Hget _]; [reflexivity |].
  rewrite Hget. reflexivity.
Defined.



(** [getRoleFromApiKey] reads the prefix map and the default role. *)
Lemma getRoleFromApiKey_ext (config config' : Config.t) (c : string) :
  Config.apiKeyMap config' = Config.apiKeyMap config ->
  Config.defaultRole config' = Config.defaultRole config ->
  getRoleFromApiKey config' c = getRoleFromApiKey config c.
Proof.
  intros Hmap Hdefault. unfold getRoleFromApiKey, apiKeyMap_get.
  now rewrite Hmap, Hdefault.
Qed.

Lemma mapApiKey_cases (config : Config.t) (prefix role : string) :
  Config.apiKeyMap (mapApiKey config prefix role) = Config.apiKeyMap config \/
  Config.apiKeyMap (mapApiKey config prefix role)
  = obj_set prefix role (Config.apiKeyMap config).
Proof.
  unfold mapApiKey, assign. simpl.
  destruct (negb (obj_has prefix (Config.apiKeyMap config))
            && String.eqb prefix "__proto__"); simpl; [now left | now right].
Qed.

(** X10: what [mapApiKey] changes.  After [mapApiKey(prefix, role)] with
    a non-empty role and a prefix other than ["__proto__"], every
    credential whose first 14 characters are exactly [prefix] resolves to
    [role], whatever else is mapped; a credential that does not start
    with [prefix] resolves as before, whatever [prefix] is; and when
    [prefix], other than ["__proto__"], is the only mapping, every
    credential that starts with it resolves to [role], provided the
    first 14 characters of the credential are not a name that the prefix
    map inherits. *)
Theorem mapApiKey_changes_matching_credentials (config : Config.t)
    (prefix role c : string) :
  (role <> ""%string -> substring0 14 c = prefix ->
   prefix <> "__proto__"%string ->
   getRoleFromApiKey (mapApiKey config prefix role) c = Role role) /\
  (~ literal_prefix prefix c ->
   getRoleFromApiKey (mapApiKey config prefix role) c
   = getRoleFromApiKey config c) /\
  (Config.apiKeyMap config = [] -> literal_prefix prefix c ->
   prefix <> "__proto__"%string ->
   inherited_name (substring0 14 c) = false ->
   getRoleFromApiKey (mapApiKey config prefix role) c = Role role).
Proof.
  refine (conj _ (conj _ _)).
  - intros Hrole Hexact Hprefix. unfold getRoleFromApiKey.
    rewrite apiKeyMap_get_mapApiKey by assumption.
    rewrite Hexact, String.eqb_refl. simpl.
    now rewrite (proj2 (truthy_true_iff role) Hrole).
  - intros Hno.
    destruct (mapApiKey_cases config prefix role) as [Hmap | Hmap].
    + now apply getRoleFromApiKey_ext.
    + assert (Hne : String.eqb (substring0 14 c) prefix = false).
      { apply String.eqb_neq. intros <-. apply Hno. apply substring0_prefix. }
      unfold getRoleFromApiKey, apiKeyMap_get, js_get, entries.
      rewrite Hmap. simpl. rewrite obj_get_set, Hne.
      rewrite (find_obj_set_rejected (startsWith c) prefix role)
        by now apply startsWith_false.
      reflexivity.
  - intros Hempty Hstarts Hprefix Hinherited.
    unfold inherited_name in Hinherited.
    apply orb_false_iff in Hinherited as [Hproto Hmethod].
    assert (Hget :
      apiKeyMap_get (mapApiKey config prefix role) (substring0 14 c)
      = if String.eqb (substring0 14 c) prefix then Some (Role role) else None).
    { rewrite apiKeyMap_get_mapApiKey by assumption.
      destruct (String.eqb (substring0 14 c) prefix); [reflexivity |].
      unfold apiKeyMap_get, js_get. rewrite Hempty.
      change (obj_get (substring0 14 c) (own (plain (@nil (string * string)))))
        with (@None string).
      change (proto (plain (@nil (string * string))))
        with (@Object_prototype string).
      now rewrite Hproto, Hmethod. }
    unfold getRoleFromApiKey. rewrite Hget. unfold entries.
    rewrite (mapApiKey_ordinary config prefix role Hprefix), Hempty. simpl.
    rewrite (proj2 (startsWith_literal_prefix c prefix) Hstarts).
    destruct (String.eqb (substring0 14 c) prefix); [| reflexivity].
    simpl. now destruct (truthy role).
Qed.

Lemma mapApiKey_changes_matching_credentials_witness :
  getRoleFromApiKey (mapApiKey mcpAuth "test_admin_" "admin") "test_admin_12345"
  = Role "admin".
Proof.
  destruct (mapApiKey_changes_matching_credentials mcpAuth "test_admin_"
              "admin" "test_admin_12345") as (_ & _ & Honly).
  apply Honly; [reflexivity | | discriminate | reflexivity].
  exists "12345"%string. reflexivity.
Defined.

Lemma getRoleFromApiKey_origin (config : Config.t) (c : string) :
  (exists p r,
     In (p, r) (entries (Config.apiKeyMap config)) /\
     getRoleFromApiKey config c = Role r /\ literal_prefix p c) \/
  (inherited_name (substring0 14 c) = true /\
   apiKeyMap_get config (substring0 14 c) = Some (getRoleFromApiKey config c) /\
   forall r, getRoleFromApiKey config c <> Role r) \/
  getRoleFromApiKey config c = Role (Config.defaultRole config).
Proof.
  assert (Hscan :
    let scan := match find (fun kv => startsWith c (fst kv))
                           (entries (Config.apiKeyMap config)) with
                | Some (_, role) => Role role
                | None => Role (Config.defaultRole config)
                end in
    (exists p r,
       In (p, r) (entries (Config.apiKeyMap config)) /\
       scan = Role r /\ literal_prefix p c) \/
    scan = Role (Config.defaultRole config)).
  { simpl.
    destruct (find (fun kv => startsWith c (fst kv))
                   (entries (Config.apiKeyMap config)))
      as [[p role] |] eqn:Hfind; [| now right].
    apply find_some in Hfind as [Hin Hstarts]. left. exists p, role.
    split; [assumption |]. split; [reflexivity |].
    now apply startsWith_literal_prefix. }
  simpl in Hscan. unfold getRoleFromApiKey.
  destruct (apiKeyMap_get config (substring0 14 c)) as [role |] eqn:Hget;
    [| destruct Hscan as [H | H]; [now left | now right; right]].
  destruct (truthy_value role) eqn:Htruthy;
    [| destruct Hscan as [H | H]; [now left | now right; right]].
  assert (Hget' := Hget). unfold apiKeyMap_get, js_get, plain in Hget'.
  cbn [own proto] in Hget'.
  destruct (obj_get (substring0 14 c) (Config.apiKeyMap config))
    as [r |] eqn:Hown.
  - injection Hget' as <-. left. exists (substring0 14 c), r.
    split; [now apply obj_get_In |]. split; [reflexivity |].
    apply substring0_prefix.
  - right. left. unfold inherited_name.
    destruct (String.eqb (substring0 14 c) "__proto__").
    + injection Hget' as <-. now repeat split.
    + destruct (includes Object_prototype_methods (substring0 14 c));
        [| discriminate].
      injection Hget' as <-. now repeat split.
Qed.

(** X11: where a resolved role comes from.  The role [getRoleFromEnv]
    returns is the direct claim, which is then non-empty and a key for
    which the role table yields something; or the role some mapped
    prefix of the non-empty credential is mapped to; or what the prefix
    map inherits under the first 14 characters of the non-empty
    credential, which is then not a string; or the default role. *)
Theorem getRoleFromEnv_origin (config : Config.t) (env : ProcessEnv) :
  let role := getRoleFromEnv config env in
  (exists directRole,
     env (Config.roleEnvVar config) = Some directRole /\
     role = Role directRole /\
     directRole <> ""%string /\ ~ absent config directRole) \/
  (exists apiKey prefix r,
     env (Config.apiKeyEnvVar config) = Some apiKey /\
     apiKey <> ""%string /\
     role = Role r /\
     In (prefix, r) (entries (Config.apiKeyMap config)) /\
     literal_prefix prefix apiKey) \/
  (exists apiKey,
     env (Config.apiKeyEnvVar config) = Some apiKey /\
     apiKey <> ""%string /\
     inherited_name (substring0 14 apiKey) = true /\
     apiKeyMap_get config (substring0 14 apiKey) = Some role /\
     forall r, role <> Role r) \/
  role = Role (Config.defaultRole config).
Proof.
  intros role. unfold role, getRoleFromEnv.
  assert (Hrest :
    let r := match env (Config.apiKeyEnvVar config) with
             | Some apiKey =>
                 if truthy apiKey then getRoleFromApiKey config apiKey
                 else Role (Config.defaultRole config)
             | None => Role (Config.defaultRole config)
             end in
    (exists apiKey prefix r0,
       env (Config.apiKeyEnvVar config) = Some apiKey /\
       apiKey <> ""%string /\
       r = Role r0 /\
       In (prefix, r0) (entries (Config.apiKeyMap config)) /\
       literal_prefix prefix apiKey) \/
    (exists apiKey,
       env (Config.apiKeyEnvVar config) = Some apiKey /\
       apiKey <> ""%string /\
       inherited_name (substring0 14 apiKey) = true /\
       apiKeyMap_get config (substring0 14 apiKey) = Some r /\
       forall r0, r <> Role r0) \/
    r = Role (Config.defaultRole config)).
  { destruct (env (Config.apiKeyEnvVar config)) as [k |];
      [| now right; right].
    destruct (truthy k) eqn:Hk; [| now right; right]. simpl.
    apply truthy_true_iff in Hk.
    destruct (getRoleFromApiKey_origin config k)
      as [(p & r0 & Hin & Hr0 & Hp) | [(Hinh & Hget & Hnot) | Hdef]].
    - left. now exists k, p, r0.
    - right. left. now exists k.
    - now right; right. }
  destruct (env (Config.roleEnvVar config)) as [d |] eqn:Hd;
    [| right; exact Hrest].
  destruct (truthy d && found_truthy (roles_get config d)) eqn:Huse;
    [| right; exact Hrest].
  apply andb_true_iff in Huse as [Ht Hh]. left. exists d.
  repeat split.
  - now apply truthy_true_iff.
  - unfold absent. congruence.
Qed.

(** ** The built-in policy *)

Lemma forallb_includes (l1 l2 : list string) (x : string) :
  forallb (includes l2) l1 = true -> In x l1 -> In x l2.
Proof.
  intros Hall Hin. rewrite forallb_forall in Hall.
  apply includes_In. now apply Hall.
Qed.

(** X12: in the default instance every tool that a role is allowed is a
    known tool: for every role key, registered or not, the list
    [getAllowedTools] returns is contained in [DEFAULT_KNOWN_TOOLS]. *)
Theorem builtin_roles_allow_known_tools_only (r x : string)
    (allowed : list string) :
  getAllowedTools mcpAuth (Role r) = Some allowed ->
  In x allowed -> In x DEFAULT_KNOWN_TOOLS.
Proof.
  rewrite getAllowedTools_by_lookup. cbn [key_of]. unfold roles_get, js_get.
  change (own (Config.roles mcpAuth)) with DEFAULT_ROLES.
  change (proto (Config.roles mcpAuth))
    with (@Object_prototype RoleConfig.t).
  change (Config.knownTools mcpAuth) with DEFAULT_KNOWN_TOOLS.
  destruct (obj_get r DEFAULT_ROLES) as [rc |] eqn:Hget.
  - intros [= <-]. apply obj_get_In in Hget. unfold DEFAULT_ROLES in Hget.
    destruct Hget as [Heq | [Heq | [Heq | [Heq | []]]]];
      injection Heq as _ <-; cbn [RoleConfig.tools];
      [trivial | | |];
      apply forallb_includes; vm_compute; reflexivity.
  - destruct (String.eqb r "__proto__"); [discriminate |].
    destruct (includes Object_prototype_methods r); [discriminate |].
    now intros [= <-] [].
Qed.

Lemma builtin_roles_allow_known_tools_only_witness :
  (exists allowed,
     getAllowedTools mcpAuth (Role "viewer") = Some allowed /\
     In "search"%string allowed) /\
  In "search"%string DEFAULT_KNOWN_TOOLS.
Proof.
  assert (Hin : In "search"%string
                   (default [] (getAllowedTools mcpAuth (Role "viewer"))))
    by (apply includes_In; reflexivity).
  split; [eexists; split; [reflexivity | exact Hin] |].
  exact (builtin_roles_allow_known_tools_only "viewer" "search" _ eq_refl Hin).
Defined.

(** X13: the documented blocked list of the built-in [editor] role is
    exactly the set of known tools the role is refused, whereas the
    built-in [author] and [viewer] roles, which are refused known tools
    too, document none. *)
Theorem builtin_editor_blocked_list_is_complete (env : ProcessEnv) (x : string) :
  (In x (getBlockedTools mcpAuth (Role "editor")) <->
   In x DEFAULT_KNOWN_TOOLS /\
   isToolAllowed mcpAuth env x (Some (Role "editor")) = Returns false) /\
  getBlockedTools mcpAuth (Role "author") = [] /\
  getBlockedTools mcpAuth (Role "viewer") = [] /\
  isToolAllowed mcpAuth env "create_user" (Some (Role "author")) = Returns false /\
  isToolAllowed mcpAuth env "create_user" (Some (Role "viewer")) = Returns false.
Proof.
  split; [| repeat split].
  set (allowed := default [] (getAllowedTools mcpAuth (Role "editor"))).
  set (blocked := getBlockedTools mcpAuth (Role "editor")).
  assert (Hdecision : isToolAllowed mcpAuth env x (Some (Role "editor"))
                      = Returns (includes allowed x)) by reflexivity.
  rewrite Hdecision. split.
  - intros Hin. split.
    + revert Hin. apply forallb_includes. vm_compute. reflexivity.
    + assert (Hall : forallb (fun y => negb (includes allowed y)) blocked = true)
        by (vm_compute; reflexivity).
      rewrite forallb_forall in Hall. f_equal.
      apply negb_true_iff. now apply Hall.
  - intros [Hknown Hreturned].
    assert (Hrefused : includes allowed x = false) by congruence.
    assert (Hall : forallb (fun y => includes allowed y || includes blocked y)
                           DEFAULT_KNOWN_TOOLS = true)
      by (vm_compute; reflexivity).
    rewrite forallb_forall in Hall. specialize (Hall x Hknown).
    rewrite Hrefused in Hall. simpl in Hall. now apply includes_In.
Qed.

Lemma builtin_editor_blocked_list_is_complete_witness :
  In "create_user"%string (getBlockedTools mcpAuth (Role "editor")) /\
  In "create_user"%string DEFAULT_KNOWN_TOOLS /\
  isToolAllowed mcpAuth no_env "create_user" (Some (Role "editor"))
  = Returns false.
Proof.
  assert (Hin : In "create_user"%string
                   (getBlockedTools mcpAuth (Role "editor")))
    by (apply includes_In; reflexivity).
  split; [exact Hin |].
  destruct (builtin_editor_blocked_list_is_complete no_env "create_user")
    as [Hiff _].
  exact (proj1 Hiff Hin).
Defined.

(** X14: the built-in roles are not a chain.  Every tool allowed to
    [viewer] or to [author] is allowed to [editor], and [admin] is
    allowed every tool; but [viewer] is allowed [get_entries_by_term],
    which [author] is refused. *)
Theorem builtin_roles_are_not_nested (env : ProcessEnv) (x : string) :
  (isToolAllowed mcpAuth env x (Some (Role "viewer")) = Returns true ->
   isToolAllowed mcpAuth env x (Some (Role "editor")) = Returns true) /\
  (isToolAllowed mcpAuth env x (Some (Role "author")) = Returns true ->
   isToolAllowed mcpAuth env x (Some (Role "editor")) = Returns true) /\
  isToolAllowed mcpAuth env x (Some (Role "admin")) = Returns true /\
  isToolAllowed mcpAuth env "get_entries_by_term" (Some (Role "viewer"))
  = Returns true /\
  isToolAllowed mcpAuth env "get_entries_by_term" (Some (Role "author"))
  = Returns false.
Proof.
  assert (Hsub : forall small,
            forallb (includes (default [] (getAllowedTools mcpAuth (Role "editor"))))
                    (default [] (getAllowedTools mcpAuth (Role small))) = true ->
            Returns (includes (default [] (getAllowedTools mcpAuth (Role small))) x)
            = Returns true ->
            Returns (includes (default [] (getAllowedTools mcpAuth (Role "editor"))) x)
            = Returns true).
  { intros small Hall Hreturned. f_equal. apply includes_In.
    apply (forallb_includes _ _ x Hall). apply includes_In. congruence. }
  refine (conj _ (conj _ (conj eq_refl (conj eq_refl eq_refl)))).
  - apply (Hsub "viewer"%string). vm_compute. reflexivity.
  - apply (Hsub "author"%string). vm_compute. reflexivity.
Qed.

Lemma builtin_roles_are_not_nested_witness :
  isToolAllowed mcpAuth no_env "search" (Some (Role "viewer")) = Returns true /\
  isToolAllowed mcpAuth no_env "search" (Some (Role "editor")) = Returns true.
Proof.
  split; [reflexivity |].
  destruct (builtin_roles_are_not_nested no_env "search") as [Hviewer _].
  apply Hviewer. reflexivity.
Defined.

(** ** Middleware *)

(** An own property of the collection is what [tools[name]] finds. *)
Lemma tools_get_own {Val : Type} (tools : JSObject (MCPTool.t Val))
    (name : string) (tool : MCPTool.t Val) :
  obj_get name (own tools) = Some tool -> tools_get tools name = TF_tool tool.
Proof.
  intros Hget. unfold tools_get, js_get. now rewrite Hget.
Qed.

Lemma message_of_TypeError (message : string) :
  message_of (TypeError message) = message.
Proof.
  unfold message_of, TypeError. simpl.
  induction message as [| c message IH]; simpl; [reflexivity |].
  now rewrite IH.
Qed.

Section MiddlewareFacts.
Variable Val : Type.
Variable empty_object : Val.
Variable JSON_stringify : list (string * Field) -> string.
Variable JSON_stringify_result : Val -> option string + Thrown.

Local Abbreviation run :=
  (executeTool Val empty_object JSON_stringify JSON_stringify_result).
Local Abbreviation denied :=
  (access_denied_response JSON_stringify).

(** X15: the permission check comes first.  Whatever [executeTool]
    calls, it calls for the requested tool; the schema's [parse] and the
    tool's [handler] are called only when [isToolAllowed] accepts the
    name and the collection has the tool, the handler only with what
    [parse] returned, [onToolExecuted] only after the handler returned,
    and [onAccessDenied] only when the name is refused. *)
Theorem executeTool_checks_permission_first (mw : Middleware.t)
    (auth : Config.t) (env : ProcessEnv) (h : heap (MCPTool.t Val))
    (name : string) (args : option Val) (call : Call Val) :
  In call (snd (run mw auth env h name args)) ->
  match call with
  | Call_onAccessDenied toolName role =>
      toolName = name /\ role = Middleware.role mw /\
      isToolAllowed auth env name None = Returns false
  | Call_parse toolName input =>
      toolName = name /\ input = default empty_object args /\
      isToolAllowed auth env name None = Returns true /\
      exists tool,
        tools_get (deref h (Middleware.tools mw)) name = TF_tool tool
  | Call_handler toolName validatedArgs =>
      toolName = name /\
      isToolAllowed auth env name None = Returns true /\
      exists tool,
        tools_get (deref h (Middleware.tools mw)) name = TF_tool tool /\
        MCPTool.parse tool (default empty_object args) = inl validatedArgs
  | Call_onToolExecuted toolName role =>
      toolName = name /\ role = Middleware.role mw /\
      isToolAllowed auth env name None = Returns true /\
      exists tool validatedArgs result,
        tools_get (deref h (Middleware.tools mw)) name = TF_tool tool /\
        MCPTool.parse tool (default empty_object args) = inl validatedArgs /\
        MCPTool.handler tool validatedArgs = inl result
  end.
Proof.
  unfold run, executeTool.
  destruct (isToolAllowed auth env name None) as [[|] | e] eqn:Hallowed.
  - destruct (tools_get (deref h (Middleware.tools mw)) name)
      as [tool | |] eqn:Hget; [| contradiction | contradiction].
    destruct (MCPTool.parse tool (default empty_object args))
      as [validatedArgs | error] eqn:Hparse.
    + destruct (MCPTool.handler tool validatedArgs) as [result | error]
        eqn:Hhandler.
      * assert (Hcalls :
          In call [Call_parse name (default empty_object args);
                   Call_handler name validatedArgs;
                   Call_onToolExecuted name (Middleware.role mw)] ->
          match call with
          | Call_onAccessDenied toolName role =>
              toolName = name /\ role = Middleware.role mw /\
              @Returns bool true = Returns false
          | Call_parse toolName input =>
              toolName = name /\ input = default empty_object args /\
              @Returns bool true = Returns true /\
              exists tool0, TF_tool tool = TF_tool tool0
          | Call_handler toolName validatedArgs0 =>
              toolName = name /\ @Returns bool true = Returns true /\
              exists tool0,
                TF_tool tool = TF_tool tool0 /\
                MCPTool.parse tool0 (default empty_object args)
                = inl validatedArgs0
          | Call_onToolExecuted toolName role =>
              toolName = name /\ role = Middleware.role mw /\
              @Returns bool true = Returns true /\
              exists tool0 validatedArgs0 result0,
                TF_tool tool = TF_tool tool0 /\
                MCPTool.parse tool0 (default empty_object args)
                = inl validatedArgs0 /\
                MCPTool.handler tool0 validatedArgs0 = inl result0
          end).
        { intros [<- | [<- | [<- | []]]].
          - repeat split. now exists tool.
          - repeat split. now exists tool.
          - repeat split. now exists tool, validatedArgs, result. }
        destruct (MCPMiddlewareOptions.onToolExecuted (Middleware.options mw))
          as [callback |]; simpl.
        -- destruct (callback name (Middleware.role mw)); simpl;
             [| destruct (JSON_stringify_result result)]; simpl;
             intros Hin; apply Hcalls; simpl; tauto.
        -- destruct (JSON_stringify_result result); simpl;
             intros Hin; apply Hcalls; simpl; tauto.
      * simpl. intros [<- | [<- | []]]; repeat split; now exists tool.
    + simpl. intros [<- | []]. repeat split. now exists tool.
  - destruct (MCPMiddlewareOptions.onAccessDenied (Middleware.options mw))
      as [callback |]; [| contradiction].
    destruct (callback name (Middleware.role mw)); simpl;
      intros [<- | []]; repeat split.
  - contradiction.
Qed.

(** X16: a refusal does not depend on the collection.  For a name that
    [isToolAllowed] refuses, [executeTool] gives the same outcome
    whatever the tool collection, the heap and the arguments are, so a
    refusal does not tell whether the tool exists; when [onAccessDenied]
    is absent or returns, the outcome is the access-denied response,
    flagged as an error, naming the role that was resolved when the
    middleware was created. *)
Theorem executeTool_refusal_hides_the_collection (tools : ref)
    (options : MCPMiddlewareOptions.t) (env0 env : ProcessEnv)
    (h : heap (MCPTool.t Val)) (name : string) (args : option Val) :
  let mw := fst (createMCPMiddleware tools options env0) in
  let auth := snd (createMCPMiddleware tools options env0) in
  isToolAllowed auth env name None = Returns false ->
  (forall tools' h' args',
     run (fst (createMCPMiddleware tools' options env0)) auth env h' name args'
     = run mw auth env h name args) /\
  ((forall callback,
      MCPMiddlewareOptions.onAccessDenied options = Some callback ->
      callback name (getRoleFromEnv auth env0) = None) ->
   fst (run mw auth env h name args)
   = Resolved (denied name (getRoleFromEnv auth env0)) /\
   ToolResponse.isError (denied name (getRoleFromEnv auth env0)) = Some true).
Proof.
  intros mw auth Hrefused. split.
  - intros tools' h' args'. unfold executeTool. rewrite Hrefused. reflexivity.
  - intros Hcallback. unfold executeTool. rewrite Hrefused.
    change (Middleware.options mw) with options.
    change (Middleware.role mw) with (getRoleFromEnv auth env0).
    destruct (MCPMiddlewareOptions.onAccessDenied options) as [callback |];
      [| now split].
    rewrite (Hcallback callback eq_refl). now split.
Qed.


(** X18: the list and the permission check agree.  Every name
    [getToolsList]
    returns is a key of the collection that [isToolAllowed] accepts;
    every key of the collection that [isToolAllowed] accepts is listed,
    unless it is ["__proto__"]; when the collection has no property
    named ["__proto__"], the list is exactly the accepted keys, in the
    order of the collection; [executeTool] on a listed name goes on to
    the tool's [parse]; and listing changes no object that existed. *)
Theorem getToolsList_lists_what_executeTool_runs (mw : Middleware.t)
    (auth : Config.t) (env : ProcessEnv) (h : heap (MCPTool.t Val)) :
  wf_obj (own (deref h (Middleware.tools mw))) ->
  let names := map ToolListing.name (fst (getToolsList Val mw auth env h)) in
  (forall name,
     In name names ->
     In name (keys (own (deref h (Middleware.tools mw)))) /\
     isToolAllowed auth env name None = Returns true) /\
  (forall name,
     In name (keys (own (deref h (Middleware.tools mw)))) ->
     isToolAllowed auth env name None = Returns true ->
     name <> "__proto__"%string ->
     In name names) /\
  (~ In "__proto__"%string (keys (own (deref h (Middleware.tools mw)))) ->
   names = List.filter (fun k => accepts auth env k None)
                       (keys (own (deref h (Middleware.tools mw))))) /\
  (forall name args,
     In name names ->
     hd_error (snd (run mw auth env h name args))
     = Some (Call_parse name (default empty_object args))) /\
  (forall (r : ref) (o : JSObject (MCPTool.t Val)),
     h !! r = Some o -> snd (getToolsList Val mw auth env h) !! r = Some o).
Proof.
  intros Hwf names.
  destruct (filterTools_entries all_objects auth env h (Middleware.tools mw)
              None Hwf) as (Hsub & Hsup & Hexact & Hkept).
  assert (Hnames :
    names
    = keys (filtered_entries
              (filterTools auth env all_objects h (Middleware.tools mw) None))).
  { unfold names, getToolsList, filtered_entries, entries, keys.
    destruct (filterTools auth env all_objects h (Middleware.tools mw) None)
      as [filteredTools h'].
    simpl. rewrite map_map. reflexivity. }
  assert (Hlisted : forall name,
            In name names ->
            In name (keys (own (deref h (Middleware.tools mw)))) /\
            isToolAllowed auth env name None = Returns true).
  { intros name Hin. rewrite Hnames in Hin. unfold keys in Hin.
    apply in_map_iff in Hin as ([k v] & <- & Hkv).
    destruct (Hsub k v Hkv) as [Hentry Hacc]. split.
    - now apply (in_map fst) in Hentry.
    - now apply accepts_true_iff. }
  refine (conj Hlisted (conj _ (conj _ (conj _ _)))).
  - intros name Hkey Hallowed Hname. unfold keys in Hkey.
    apply in_map_iff in Hkey as ([k v] & <- & Hkv).
    rewrite Hnames.
    apply (in_map fst _ (k, v)). apply Hsup; try assumption.
    now apply accepts_true_iff.
  - intros Hno. rewrite Hnames, (Hexact Hno).
    apply (filter_keys (fun k => accepts auth env k None)).
  - intros name args Hin. destruct (Hlisted name Hin) as [Hkey Hallowed].
    destruct (obj_get_of_key name _ Hkey) as [tool Hget].
    unfold executeTool. rewrite Hallowed, (tools_get_own _ _ _ Hget).
    destruct (MCPTool.parse tool (default empty_object args)); [| reflexivity].
    destruct (MCPTool.handler tool v); [| reflexivity].
    destruct (MCPMiddlewareOptions.onToolExecuted (Middleware.options mw))
      as [callback |]; simpl.
    + destruct (callback name (Middleware.role mw)); [reflexivity |].
      now destruct (JSON_stringify_result v0).
    + now destruct (JSON_stringify_result v0).
  - unfold getToolsList.
    destruct (filterTools auth env all_objects h (Middleware.tools mw) None)
      as [filteredTools h'].
    exact Hkept.
Qed.

End MiddlewareFacts.

Lemma executeTool_checks_permission_first_witness :
  In (Call_handler "list_entries" "hi"%string)
     (snd (executeTool string "{}"%string sample_stringify sample_stringify_result
             (Middleware.mk 0 no_options (Role "viewer")) sample_config no_env
             [sample_mcp_tools] "list_entries" (Some "hi"%string))) /\
  isToolAllowed sample_config no_env "list_entries" None = Returns true.
Proof.
  assert (Hin :
    In (Call_handler "list_entries" "hi"%string)
       (snd (executeTool string "{}"%string sample_stringify sample_stringify_result
               (Middleware.mk 0 no_options (Role "viewer")) sample_config no_env
               [sample_mcp_tools] "list_entries" (Some "hi"%string))))
    by (simpl; tauto).
  split; [exact Hin |].
  apply (executeTool_checks_permission_first string "{}"%string sample_stringify
           sample_stringify_result _ _ _ _ _ _ _ Hin).
Defined.

(** The middleware was created while the environment claimed [admin];
    the call is refused under the later environment, and the response
    still names [admin]. *)
Lemma executeTool_refusal_hides_the_collection_witness :
  isToolAllowed (snd (createMCPMiddleware 0 no_options admin_env)) no_env
                "create_user" None = Returns false /\
  fst (executeTool string "{}"%string sample_stringify sample_stringify_result
         (fst (createMCPMiddleware 0 no_options admin_env)) sample_config
         no_env [sample_mcp_tools] "create_user" None)
  = Resolved (access_denied_response sample_stringify "create_user"
                                     (Role "admin")).
Proof.
  split; [reflexivity |].
  destruct (executeTool_refusal_hides_the_collection string "{}"%string
              sample_stringify sample_stringify_result 0 no_options admin_env
              no_env [sample_mcp_tools] "create_user" None eq_refl)
    as [_ Hdenied].
  apply Hdenied. intros callback Hcallback. discriminate.
Defined.


Lemma getToolsList_lists_what_executeTool_runs_witness :
  wf_obj (own (deref [sample_mcp_tools] 0)) /\
  map ToolListing.name
      (fst (getToolsList string (Middleware.mk 0 no_options (Role "viewer"))
              sample_config no_env [sample_mcp_tools]))
  = ["list_entries"%string].
Proof.
  split; [reflexivity |].
  destruct (getToolsList_lists_what_executeTool_runs string "{}"%string
              sample_stringify sample_stringify_result
              (Middleware.mk 0 no_options (Role "viewer")) sample_config no_env
              [sample_mcp_tools]) as (_ & _ & Hnames & _); [reflexivity |].
  rewrite Hnames; [reflexivity |].
  simpl. intros [H | [H | []]]; discriminate.
Defined.

(** ** Schema conversion *)

Lemma keys_map_snd {A B : Type} (g : A -> B) (l : obj A) :
  keys (map (fun kv => (fst kv, g (snd kv))) l) = keys l.
Proof.
  unfold keys. rewrite map_map. now apply map_ext.
Qed.

(** The loop over the fields of an object schema: every field but one
    under the key ["__proto__"] becomes a property. *)
Lemma convert_shape_fields (convert : ZodType -> obj Json)
    (l : obj ZodType) (properties : JSObject Json) (required : list string) :
  wf_obj (own properties
          ++ map (fun kv => (fst kv, J_object (convert (snd kv))))
                 (List.filter (fun kv => assignable (fst kv)) l)) ->
  ~ In "__proto__"%string (keys (own properties)) ->
  proto properties <> Null_prototype ->
  own (fst (convert_shape convert l properties required))
  = own properties
    ++ map (fun kv => (fst kv, J_object (convert (snd kv))))
           (List.filter (fun kv => assignable (fst kv)) l) /\
  snd (convert_shape convert l properties required)
  = required
    ++ keys (List.filter
               (fun kv => negb (isOptional (snd kv))
                          && negb (isNullable (snd kv))) l).
Proof.
  revert properties required.
  induction l as [| [key value] l IH]; simpl;
    intros properties required Hwf Hown Hproto.
  - now rewrite !app_nil_r.
  - assert (Hrequired :
      forall rest,
        (if negb (isOptional value) && negb (isNullable value)
         then required ++ [key] else required) ++ rest
        = required
          ++ keys (if negb (isOptional value) && negb (isNullable value)
                   then (key, value) :: [] else [])
          ++ rest).
    { intros rest.
      destruct (negb (isOptional value) && negb (isNullable value)); simpl;
        [now rewrite <- app_assoc | reflexivity]. }
    destruct (String.eqb_spec key "__proto__") as [-> | Hkey].
    + assert (Hhas : obj_has "__proto__" (own properties) = false)
        by now apply obj_has_false_iff.
      unfold assignable in Hwf at 1. simpl in Hwf.
      unfold assignable at 1. simpl.
      destruct (IH (assign (fun _ => K_object) "__proto__"
                           (J_object (convert value)) properties)
                   (if negb (isOptional value) && negb (isNullable value)
                    then required ++ ["__proto__"%string] else required))
        as [Hproperties Hlist].
      * now rewrite assign_proto_own.
      * now rewrite assign_proto_own.
      * unfold assign. rewrite Hhas. simpl.
        destruct (proto properties); simpl; congruence.
      * rewrite Hproperties, Hlist, assign_proto_own by assumption.
        split; [reflexivity |]. rewrite Hrequired.
        now destruct (negb (isOptional value) && negb (isNullable value)).
    + assert (Hass : assignable key = true) by now apply assignable_true_iff.
      rewrite Hass in *. simpl in *.
      replace (own properties
               ++ (key, J_object (convert value))
                  :: map (fun kv => (fst kv, J_object (convert (snd kv))))
                         (List.filter (fun kv => assignable (fst kv)) l))
        with ((own properties ++ [(key, J_object (convert value))])
              ++ map (fun kv => (fst kv, J_object (convert (snd kv))))
                     (List.filter (fun kv => assignable (fst kv)) l)) in *
        by now rewrite <- app_assoc.
      assert (Hset : obj_set key (J_object (convert value)) (own properties)
                     = own properties ++ [(key, J_object (convert value))]).
      { apply obj_set_snoc. now apply wf_obj_app in Hwf. }
      rewrite assign_ordinary by now left. rewrite Hset.
      destruct (IH {| own := own properties ++ [(key, J_object (convert value))];
                      proto := proto properties |}
                   (if negb (isOptional value) && negb (isNullable value)
                    then required ++ [key] else required))
        as [Hproperties Hlist]; try assumption.
      * simpl. unfold keys. rewrite map_app, in_app_iff. simpl.
        intuition congruence.
      * rewrite Hproperties, Hlist. simpl.
        split; [reflexivity |]. rewrite Hrequired.
        now destruct (negb (isOptional value) && negb (isNullable value)).
Qed.

(** X19: every JSON Schema that [zodToJsonSchema] builds is a
    well-formed object with a [type] that is one of [object], [string],
    [number], [boolean] and [array]; wrapping a schema as nullable keeps
    its type and adds [nullable: true]. *)
Theorem zodToJsonSchema_has_a_type (schema : ZodType) :
  wf_obj (zodToJsonSchema schema) /\
  (exists t,
     obj_get "type" (zodToJsonSchema schema) = Some (J_string t) /\
     In t ["object"%string; "string"%string; "number"%string;
           "boolean"%string; "array"%string]) /\
  obj_get "type" (zodToJsonSchema (ZodNullable schema))
  = obj_get "type" (zodToJsonSchema schema) /\
  obj_get "nullable" (zodToJsonSchema (ZodNullable schema)) = Some J_true.
Proof.
  assert (Hbase : wf_obj (zodToJsonSchema schema) /\
                  exists t,
                    obj_get "type" (zodToJsonSchema schema) = Some (J_string t) /\
                    In t ["object"%string; "string"%string; "number"%string;
                          "boolean"%string; "array"%string]).
  { induction schema as [shape | d | d | d | type IH d | values d
                         | inner IH | inner IH | d |]; simpl.
    - destruct (convert_shape zodToJsonSchema shape (plain []) [])
        as [properties required].
      split; [reflexivity |]. exists "object"%string. simpl. tauto.
    - split; [reflexivity |]. exists "string"%string. simpl. tauto.
    - split; [reflexivity |]. exists "number"%string. simpl. tauto.
    - split; [reflexivity |]. exists "boolean"%string. simpl. tauto.
    - split; [reflexivity |]. exists "array"%string. simpl. tauto.
    - split; [reflexivity |]. exists "string"%string. simpl. tauto.
    - exact IH.
    - destruct IH as [Hwf (t & Ht & Hin)]. split.
      + apply obj_set_wf. now rewrite obj_assign_nil.
      + exists t. split; [| exact Hin].
        rewrite obj_get_set. simpl. now rewrite obj_assign_nil.
    - split; [reflexivity |]. exists "object"%string. simpl. tauto.
    - split; [reflexivity |]. exists "object"%string. simpl. tauto. }
  destruct Hbase as [Hwf Htype]. refine (conj Hwf (conj Htype (conj _ _))).
  - simpl. rewrite obj_get_set. simpl. now rewrite obj_assign_nil.
  - simpl. rewrite obj_get_set. reflexivity.
Qed.

(** X20: the fields of an object schema.  For an object schema,
    [properties] holds the conversion of every field of the shape whose
    key is not ["__proto__"], under the field's key and in the order of
    the shape; a field under the key ["__proto__"] becomes no property.
    [required] lists, in the order of the shape, the keys of all the
    fields whose schema is neither optional nor nullable at its top, or
    is [undefined] when there is no such field. *)
Theorem zodToJsonSchema_object_fields (shape : obj ZodType) :
  wf_obj shape ->
  let required :=
    keys (List.filter (fun kv => negb (isOptional (snd kv))
                                 && negb (isNullable (snd kv))) shape) in
  zodToJsonSchema (ZodObject shape)
  = [("type"%string, J_string "object");
     ("properties"%string,
      J_object (map (fun kv => (fst kv, J_object (zodToJsonSchema (snd kv))))
                    (List.filter (fun kv => assignable (fst kv)) shape)));
     ("required"%string,
      match required with
      | [] => J_undefined
      | _ :: _ => J_strings required
      end)].
Proof.
  intros Hwf required.
  destruct (convert_shape_fields zodToJsonSchema shape (plain []) [])
    as [Hproperties Hrequired].
  - simpl. unfold wf_obj.
    rewrite (keys_map_snd (fun s => J_object (zodToJsonSchema s))).
    now apply wf_obj_filter.
  - simpl. tauto.
  - discriminate.
  - simpl in *.
    destruct (convert_shape zodToJsonSchema shape (plain []) [])
      as [properties required'].
    simpl in *. now rewrite Hproperties, Hrequired.
Qed.

Lemma zodToJsonSchema_object_fields_witness :
  wf_obj [("title"%string, ZodString None);
          ("tags"%string, ZodOptional (ZodArray (ZodString None) None));
          ("note"%string, ZodNullable (ZodString None))] /\
  obj_get "required"
    (zodToJsonSchema
       (ZodObject [("title"%string, ZodString None);
                   ("tags"%string, ZodOptional (ZodArray (ZodString None) None));
                   ("note"%string, ZodNullable (ZodString None))]))
  = Some (J_strings ["title"%string]).
Proof.
  split; [reflexivity |].
  rewrite (zodToJsonSchema_object_fields
             [("title"%string, ZodString None);
              ("tags"%string, ZodOptional (ZodArray (ZodString None) None));
              ("note"%string, ZodNullable (ZodString None))]);
    reflexivity.
Defined.
